(** * Downloader: resumable, pausable, cancellable file download

    A shallow embedding of [Downloader.cpp] (with [ICurlHandle.h] and
    [IDownloaderObserver.h]).  The engine's members become a record, its
    public methods become functions on that record, and the body of
    [doDownload] is cut at the points where the worker thread hands control
    to somebody else: the call into the curl handle, each callback that the
    handle invokes, the condition-variable wait of [waitIfPaused], and the
    return of [perform].  The control thread's calls interleave with these
    pieces; a schedule is a list of labels naming who moves next.

    A piece runs with nothing in between.  The program takes no lock
    around a piece, so schedules are the executions in which no call lands
    inside a callback, inside the code after [perform], or between the two
    stores of [pause], [resume] or [cancel].  A second model, of single
    accesses, drops that restriction: there every load, store and
    compare-exchange of an atomic member and every notification is a move
    of its own, and calls may overlap.  Every schedule of pieces is an
    interleaving of single accesses; what depends on a call landing inside
    a piece is stated and proved on the second model.

    What the collaborators do is not decided by the engine and is carried by
    the labels: the size found on disk, whether the output stream opens,
    what the curl factory yields, which callbacks the handle invokes with
    which arguments, and what [perform], [getHttpResponseCode] and
    [getLastError] report.  Observer callbacks are assumed to return
    normally. *)

From Stdlib Require Import ZArith NArith List String Bool Lia DecimalString.
Import ListNotations.
Local Open Scope Z_scope.

(* ===================================================================== *)
(** ** 64-bit signed arithmetic ([int64_t], [std::atomic<int64_t>])        *)
(* ===================================================================== *)

Module Int64.

Definition half_modulus : Z := 2 ^ 63.
Definition modulus : Z := 2 ^ 64.
Definition min_signed : Z := - half_modulus.
Definition max_signed : Z := half_modulus - 1.

(** Two's complement reduction into [min_signed, max_signed]. *)
Definition wrap (z : Z) : Z := (z + half_modulus) mod modulus - half_modulus.

Definition in_range (z : Z) : Prop := min_signed <= z <= max_signed.

(** [fetch_add] on an atomic wraps; plain [+] and [-] on [int64_t] are
    taken with the same wrap-around, which is what the compiled code does. *)
Definition add (a b : Z) : Z := wrap (a + b).
Definition sub (a b : Z) : Z := wrap (a - b).

(** [static_cast<int64_t>(size)] for a [size_t]. *)
Definition of_size_t (n : N) : Z := wrap (Z.of_N n).

End Int64.

(* ===================================================================== *)
(** ** Data model                                                          *)
(* ===================================================================== *)

(** [enum class DownloadState] *)
Inductive DownloadState : Type :=
| IDLE | DOWNLOADING | PAUSED | COMPLETED | CANCELLED | ERROR.

(** [enum class CurlResult] *)
Inductive CurlResult : Type :=
| OK | ABORTED_BY_CALLBACK | HTTP_ERROR | NETWORK_ERROR
| RANGE_NOT_SATISFIED | OTHER_ERROR.

Definition DownloadState_eqb (a b : DownloadState) : bool :=
  match a, b with
  | IDLE, IDLE | DOWNLOADING, DOWNLOADING | PAUSED, PAUSED
  | COMPLETED, COMPLETED | CANCELLED, CANCELLED | ERROR, ERROR => true
  | _, _ => false
  end.

(** An [IDownloaderObserver*]: the address it holds. *)
Definition observer : Type := N.
Definition nullptr : observer := 0%N.

(** The [double percent] argument of [onProgress], kept symbolic: the code
    passes the literal [-1.0], the literal [100.0], or the quotient
    [downloaded / total * 100.0] of the two counters. *)
Inductive percent : Type :=
| PercentUnknown
| PercentRatio (downloaded total : Z)
| PercentFull.

(** One call of a method of [IDownloaderObserver]. *)
Inductive event : Type :=
| onProgress (downloadedBytes totalBytes : Z) (pct : percent)
| onCompleted
| onError (errorMessage : string)
| onPaused
| onResumed
| onCancelled.

(** Locals of [doDownload] that live across the call to [perform]. *)
Inductive openmode : Type := app | trunc.

Record ofstream : Type := mk_ofstream {
  of_mode    : openmode;
  of_failbit : bool;      (* sticky: once set, later writes do nothing *)
  of_written : Z          (* bytes appended through this stream *)
}.

(** What [doDownload] configured on the curl handle that matters here. *)
Record curl_handle : Type := mk_curl {
  curl_url        : string;
  curl_resumeFrom : option Z   (* [Some n] iff [setResumeFrom(n)] was called *)
}.

Record locals : Type := mk_locals {
  resumeFrom : Z;
  outFile    : ofstream;
  curl       : curl_handle
}.

(** Where [workerThread_] stands. *)
Inductive worker : Type :=
| NotStarted                                   (* no thread, not joinable *)
| Spawned                                      (* launched, [doDownload] not entered *)
| InPerform (l : locals)                       (* inside [curl->perform()] *)
| InWait (l : locals) (size : N) (io_ok : bool)(* write callback blocked on [pauseCv_] *)
| Exited.                                      (* thread function returned *)

(** The members of [class Downloader], with two logs added: [calls] lists
    the [notify*] invocations in order, [delivered] the observer methods
    they invoked. *)
Record Downloader : Type := mk_Downloader {
  observers_       : list observer;
  url_             : string;
  outputPath_      : string;
  downloadedBytes_ : Z;
  totalBytes_      : Z;
  state_           : DownloadState;
  pauseRequested_  : bool;
  cancelRequested_ : bool;
  workerThread_    : worker;
  calls            : list event;
  delivered        : list (observer * event)
}.

(** [DownloadStats] *)
Record DownloadStats : Type := mk_stats {
  stats_downloadedBytes : Z;
  stats_totalBytes      : Z;
  stats_percent         : percent;
  stats_state           : DownloadState;
  stats_url             : string;
  stats_outputPath      : string
}.

(** The constructor. *)
Definition init : Downloader :=
  {| observers_ := []; url_ := ""; outputPath_ := "";
     downloadedBytes_ := 0; totalBytes_ := 0; state_ := IDLE;
     pauseRequested_ := false; cancelRequested_ := false;
     workerThread_ := NotStarted; calls := []; delivered := [] |}.

(** Field updates. *)
Definition set_observers (v : list observer) (d : Downloader) : Downloader :=
  mk_Downloader v (url_ d) (outputPath_ d) (downloadedBytes_ d) (totalBytes_ d)
    (state_ d) (pauseRequested_ d) (cancelRequested_ d) (workerThread_ d)
    (calls d) (delivered d).

Definition set_downloadedBytes (v : Z) (d : Downloader) : Downloader :=
  mk_Downloader (observers_ d) (url_ d) (outputPath_ d) v (totalBytes_ d)
    (state_ d) (pauseRequested_ d) (cancelRequested_ d) (workerThread_ d)
    (calls d) (delivered d).

Definition set_totalBytes (v : Z) (d : Downloader) : Downloader :=
  mk_Downloader (observers_ d) (url_ d) (outputPath_ d) (downloadedBytes_ d) v
    (state_ d) (pauseRequested_ d) (cancelRequested_ d) (workerThread_ d)
    (calls d) (delivered d).

Definition set_state (v : DownloadState) (d : Downloader) : Downloader :=
  mk_Downloader (observers_ d) (url_ d) (outputPath_ d) (downloadedBytes_ d)
    (totalBytes_ d) v (pauseRequested_ d) (cancelRequested_ d)
    (workerThread_ d) (calls d) (delivered d).

Definition set_pauseRequested (v : bool) (d : Downloader) : Downloader :=
  mk_Downloader (observers_ d) (url_ d) (outputPath_ d) (downloadedBytes_ d)
    (totalBytes_ d) (state_ d) v (cancelRequested_ d) (workerThread_ d)
    (calls d) (delivered d).

Definition set_cancelRequested (v : bool) (d : Downloader) : Downloader :=
  mk_Downloader (observers_ d) (url_ d) (outputPath_ d) (downloadedBytes_ d)
    (totalBytes_ d) (state_ d) (pauseRequested_ d) v (workerThread_ d)
    (calls d) (delivered d).

Definition set_workerThread (v : worker) (d : Downloader) : Downloader :=
  mk_Downloader (observers_ d) (url_ d) (outputPath_ d) (downloadedBytes_ d)
    (totalBytes_ d) (state_ d) (pauseRequested_ d) (cancelRequested_ d) v
    (calls d) (delivered d).

(* ===================================================================== *)
(** ** Observer management and notification                                *)
(* ===================================================================== *)

(** [std::find(observers_.begin(), observers_.end(), observer) != end] *)
Definition registered (o : observer) (l : list observer) : bool :=
  existsb (N.eqb o) l.

(** [Downloader::addObserver] *)
Definition addObserver (o : observer) (d : Downloader) : Downloader :=
  if N.eqb o nullptr then d
  else if registered o (observers_ d) then d
  else set_observers (observers_ d ++ [o]) d.

(** [Downloader::removeObserver]: erase-remove of every equal element. *)
Definition removeObserver (o : observer) (d : Downloader) : Downloader :=
  set_observers (filter (fun x => negb (N.eqb x o)) (observers_ d)) d.

(** The loop shared by the six [notify*] helpers: one call on every
    registered observer, in list order. *)
Definition notify (e : event) (d : Downloader) : Downloader :=
  mk_Downloader (observers_ d) (url_ d) (outputPath_ d) (downloadedBytes_ d)
    (totalBytes_ d) (state_ d) (pauseRequested_ d) (cancelRequested_ d)
    (workerThread_ d)
    (calls d ++ [e])
    (delivered d ++ map (fun o => (o, e)) (observers_ d)).

Definition notifyProgress (downloaded total : Z) (pct : percent) :=
  notify (onProgress downloaded total pct).
Definition notifyCompleted := notify onCompleted.
Definition notifyError (message : string) := notify (onError message).
Definition notifyPaused := notify onPaused.
Definition notifyResumed := notify onResumed.
Definition notifyCancelled := notify onCancelled.

(* ===================================================================== *)
(** ** Download control (caller's thread)                                  *)
(* ===================================================================== *)

(** [Downloader::startDownload].  [join()] on a thread that is still
    running blocks; that case yields [None]. *)
Definition startDownload (url outputPath : string) (d : Downloader)
  : option (bool * Downloader) :=
  match state_ d with
  | DOWNLOADING | PAUSED => Some (false, d)
  | _ =>
    match workerThread_ d with
    | Spawned | InPerform _ | InWait _ _ _ => None
    | NotStarted | Exited =>
      Some (true,
            mk_Downloader (observers_ d) url outputPath 0 0 DOWNLOADING
              false false Spawned (calls d) (delivered d))
    end
  end.

(** [Downloader::pause]: compare-exchange DOWNLOADING -> PAUSED. *)
Definition pause (d : Downloader) : Downloader :=
  match state_ d with
  | DOWNLOADING => set_pauseRequested true (set_state PAUSED d)
  | _ => d
  end.

(** [Downloader::resume]: compare-exchange PAUSED -> DOWNLOADING. *)
Definition resume (d : Downloader) : Downloader :=
  match state_ d with
  | PAUSED => set_pauseRequested false (set_state DOWNLOADING d)
  | _ => d
  end.

(** [Downloader::cancel] *)
Definition cancel (d : Downloader) : Downloader :=
  set_pauseRequested false (set_cancelRequested true d).

(** The percentage computed by [getStats] and by the progress callback. *)
Definition percent_of (downloaded total : Z) : percent :=
  if 0 <? total then PercentRatio downloaded total else PercentUnknown.

(** [Downloader::getStats] *)
Definition getStats (d : Downloader) : DownloadStats :=
  {| stats_downloadedBytes := downloadedBytes_ d;
     stats_totalBytes := totalBytes_ d;
     stats_percent := percent_of (downloadedBytes_ d) (totalBytes_ d);
     stats_state := state_ d;
     stats_url := url_ d;
     stats_outputPath := outputPath_ d |}.

(** [Downloader::getState] *)
Definition getState (d : Downloader) : DownloadState := state_ d.

(* ===================================================================== *)
(** ** Worker thread                                                       *)
(* ===================================================================== *)

(** What [curlFactory_()] does: a handle, a null pointer, an exception
    derived from [std::exception] (the default factory throws a
    [std::runtime_error] when [curl_easy_init] fails), or an exception of
    any other type.  [workerThread] catches the last two separately. *)
Inductive factory_result : Type :=
| FactoryHandle
| FactoryNull
| FactoryThrows (what : string)
| FactoryThrowsOther.

(** [std::to_string(long)] *)
Definition to_string (n : Z) : string := NilZero.string_of_int (Z.to_int n).

(** The thread function returns. *)
Definition finish (d : Downloader) : Downloader := set_workerThread Exited d.

(** [doDownload] up to the call of [perform], inside the [try] of
    [workerThread].  [existing] is the size [tellg] reports when the
    destination could be opened for reading, [open_ok] whether the output
    stream opened. *)
Definition doDownload_begin (existing : option Z) (open_ok : bool)
    (made : factory_result) (d : Downloader) : Downloader :=
  let resume_from := match existing with Some n => n | None => 0 end in
  let d1 := set_downloadedBytes resume_from d in
  if negb open_ok then
    finish (notifyError ("Failed to open output file: " ++ outputPath_ d)%string
                        (set_state ERROR d1))
  else
    match made with
    | FactoryThrows what =>
      finish (notifyError ("Unexpected exception: " ++ what)%string
                          (set_state ERROR d1))
    | FactoryThrowsOther =>
      finish (notifyError "Unknown exception in worker thread"
                          (set_state ERROR d1))
    | FactoryNull =>
      finish (notifyError "Failed to create curl handle" (set_state ERROR d1))
    | FactoryHandle =>
      set_workerThread
        (InPerform
           {| resumeFrom := resume_from;
              outFile := {| of_mode := if 0 <? resume_from then app else trunc;
                            of_failbit := false;
                            of_written := 0 |};
              curl := {| curl_url := url_ d;
                         curl_resumeFrom :=
                           if 0 <? resume_from then Some resume_from
                           else None |} |})
        d1
    end.

(** [outFile.write(data, size)]; [io_ok] says whether the device takes the
    bytes. *)
Definition ofstream_write (size : N) (io_ok : bool) (f : ofstream) : ofstream :=
  if of_failbit f then f
  else if io_ok then mk_ofstream (of_mode f) false (of_written f + Z.of_N size)
  else mk_ofstream (of_mode f) true (of_written f).

Definition with_outFile (f : ofstream) (l : locals) : locals :=
  mk_locals (resumeFrom l) f (curl l).

(** The tail of the write callback: write, test [fail()], [fetch_add].
    The first component is the value returned to the handle. *)
Definition write_chunk (size : N) (io_ok : bool) (l : locals) (d : Downloader)
  : N * Downloader :=
  let f := ofstream_write size io_ok (outFile l) in
  let d1 := set_workerThread (InPerform (with_outFile f l)) d in
  if of_failbit f then (0%N, d1)
  else (size,
        set_downloadedBytes
          (Int64.add (downloadedBytes_ d) (Int64.of_size_t size)) d1).

(** The write callback, up to the point where it either returns or blocks
    in [waitIfPaused] (after [notifyPaused]); [None] stands for "blocked". *)
Definition writeCallback (size : N) (io_ok : bool) (l : locals) (d : Downloader)
  : option N * Downloader :=
  if cancelRequested_ d then (Some 0%N, d)
  else if pauseRequested_ d then
    (None, set_workerThread (InWait l size io_ok) (notifyPaused d))
  else let r := write_chunk size io_ok l d in (Some (fst r), snd r).

(** The predicate of [pauseCv_.wait]. *)
Definition wait_over (d : Downloader) : bool :=
  negb (pauseRequested_ d) || cancelRequested_ d.

(** The blocked write callback is woken: [waitIfPaused] re-tests its
    predicate and, if it holds, returns; the callback then finishes. *)
Definition waitIfPaused_wake (l : locals) (size : N) (io_ok : bool)
    (d : Downloader) : option N * Downloader :=
  if wait_over d then
    if cancelRequested_ d then
      (Some 0%N, set_workerThread (InPerform l) d)
    else
      let r := write_chunk size io_ok l (notifyResumed d) in
      (Some (fst r), snd r)
  else (None, d).

(** The progress callback; the first component is its return value. *)
Definition progressCallback (dltotal dlnow : Z) (d : Downloader)
  : Z * Downloader :=
  if cancelRequested_ d then (1, d)
  else
    let baseOffset := Int64.sub (downloadedBytes_ d) dlnow in
    let d1 := if 0 <? dltotal
              then set_totalBytes (Int64.add dltotal baseOffset) d
              else d in
    let downloaded := downloadedBytes_ d1 in
    let total := totalBytes_ d1 in
    (0, notifyProgress downloaded total (percent_of downloaded total) d1).

(** [doDownload] after [perform] has returned [result]; [httpCode] and
    [lastError] are what the handle answers to [getHttpResponseCode] and
    [getLastError]. *)
Definition doDownload_resolve (result : CurlResult) (httpCode : Z)
    (lastError : string) (d : Downloader) : Downloader :=
  if cancelRequested_ d then
    finish (notifyCancelled (set_state CANCELLED d))
  else if DownloadState_eqb (state_ d) PAUSED then
    finish (notifyCancelled (set_state CANCELLED d))
  else
    match result with
    | OK =>
      if 400 <=? httpCode then
        finish (notifyError ("HTTP error: " ++ to_string httpCode)%string
                            (set_state ERROR d))
      else
        let total := totalBytes_ d in
        let downloaded := downloadedBytes_ d in
        finish (notifyCompleted
                  (set_state COMPLETED
                     (notifyProgress downloaded
                        (if 0 <? total then total else downloaded)
                        PercentFull d)))
    | ABORTED_BY_CALLBACK =>
      finish (notifyError ("Download aborted: " ++ lastError)%string
                          (set_state ERROR d))
    | NETWORK_ERROR =>
      finish (notifyError ("Network error: " ++ lastError)%string
                          (set_state ERROR d))
    | RANGE_NOT_SATISFIED =>
      finish (notifyError
                "Server does not support resume (Range not satisfied)"
                (set_state ERROR d))
    | HTTP_ERROR | OTHER_ERROR =>
      finish (notifyError ("Download failed: " ++ lastError)%string
                          (set_state ERROR d))
    end.

(* ===================================================================== *)
(** ** Schedules                                                           *)
(* ===================================================================== *)

(** Who moves next.  The first six labels are calls made on the engine by
    the controlling thread; the rest are the worker thread advancing, each
    carrying what its collaborators supplied. *)
Inductive label : Type :=
| AddObserver (o : observer)
| RemoveObserver (o : observer)
| StartDownload (url outputPath : string)
| Pause
| Resume
| Cancel
| WorkerBegin (existing : option Z) (open_ok : bool) (made : factory_result)
| WriteCb (size : N) (io_ok : bool)
| ProgressCb (dltotal dlnow : Z)
| Wake
| PerformReturns (result : CurlResult) (httpCode : Z) (lastError : string).

(** One move; [None] when the move cannot happen in this state. *)
Definition exec (a : label) (d : Downloader) : option Downloader :=
  match a with
  | AddObserver o => Some (addObserver o d)
  | RemoveObserver o => Some (removeObserver o d)
  | StartDownload url outputPath =>
    option_map snd (startDownload url outputPath d)
  | Pause => Some (pause d)
  | Resume => Some (resume d)
  | Cancel => Some (cancel d)
  | WorkerBegin existing open_ok made =>
    match workerThread_ d with
    | Spawned => Some (doDownload_begin existing open_ok made d)
    | _ => None
    end
  | WriteCb size io_ok =>
    match workerThread_ d with
    | InPerform l => Some (snd (writeCallback size io_ok l d))
    | _ => None
    end
  | ProgressCb dltotal dlnow =>
    match workerThread_ d with
    | InPerform _ => Some (snd (progressCallback dltotal dlnow d))
    | _ => None
    end
  | Wake =>
    match workerThread_ d with
    | InWait l size io_ok => Some (snd (waitIfPaused_wake l size io_ok d))
    | _ => None
    end
  | PerformReturns result httpCode lastError =>
    match workerThread_ d with
    | InPerform _ => Some (doDownload_resolve result httpCode lastError d)
    | _ => None
    end
  end.

Fixpoint run (sched : list label) (d : Downloader) : option Downloader :=
  match sched with
  | [] => Some d
  | a :: rest =>
    match exec a d with
    | Some d' => run rest d'
    | None => None
    end
  end.

Definition reachable (d : Downloader) : Prop :=
  exists sched, run sched init = Some d.

(** A schedule in which the engine is not restarted. *)
Definition is_start (a : label) : bool :=
  match a with StartDownload _ _ => true | _ => false end.

Definition no_restart (sched : list label) : bool :=
  forallb (fun a => negb (is_start a)) sched.

(** The worker thread exists and has not returned. *)
Definition running (w : worker) : bool :=
  match w with
  | Spawned | InPerform _ | InWait _ _ _ => true
  | NotStarted | Exited => false
  end.

Definition active (s : DownloadState) : bool :=
  match s with DOWNLOADING | PAUSED => true | _ => false end.

(** Classification and counting of events. *)
Definition is_progress (e : event) : bool :=
  match e with onProgress _ _ _ => true | _ => false end.
Definition is_completed (e : event) : bool :=
  match e with onCompleted => true | _ => false end.
Definition is_error (e : event) : bool :=
  match e with onError _ => true | _ => false end.
Definition is_cancelled (e : event) : bool :=
  match e with onCancelled => true | _ => false end.
Definition is_paused (e : event) : bool :=
  match e with onPaused => true | _ => false end.
Definition terminal (e : event) : bool :=
  is_completed e || is_error e || is_cancelled e.

Definition count (p : event -> bool) (evs : list event) : nat :=
  List.length (filter p evs).

(** What observer [o] has received, in order. *)
Definition received (o : observer) (d : Downloader) : list event :=
  map snd (filter (fun x => N.eqb (fst x) o) (delivered d)).

(** The [downloadedBytes] argument of every progress event in a list. *)
Definition progress_downloaded (evs : list event) : list Z :=
  flat_map (fun e => match e with
                     | onProgress dl _ _ => [dl]
                     | _ => []
                     end) evs.

(** Fan-out of a list of events over a list of observers. *)
Definition fanout (obs : list observer) (evs : list event)
  : list (observer * event) :=
  flat_map (fun e => map (fun o => (o, e)) obs) evs.

(** Registration and removal are the only moves that touch [observers_]. *)
Definition is_registry_op (a : label) : bool :=
  match a with AddObserver _ | RemoveObserver _ => true | _ => false end.

(** No terminal event in a list. *)
Definition quiet (evs : list event) : bool :=
  forallb (fun e => negb (terminal e)) evs.

(** What holds of every state the engine can reach. *)
Record invariant (d : Downloader) : Prop := mk_invariant {
  inv_distinct  : NoDup (observers_ d);
  inv_nonnull   : ~ In nullptr (observers_ d);
  inv_delivered : forall x, In x (delivered d) -> fst x <> nullptr;
  inv_worker    : running (workerThread_ d) = active (state_ d)
}.

(* ===================================================================== *)
(** ** Bookkeeping for attempts                                            *)
(* ===================================================================== *)

(** The resume position [doDownload] derives from the probe of the
    destination file. *)
Definition resume_offset (existing : option Z) : Z :=
  match existing with Some n => n | None => 0 end.

(** Bytes the handle passes to the write callback over a schedule. *)
Fixpoint offered (sched : list label) : Z :=
  match sched with
  | [] => 0
  | WriteCb size _ :: rest => Z.of_N size + offered rest
  | _ :: rest => offered rest
  end.

(** The chunk a blocked write callback still holds. *)
Definition pending (w : worker) : Z :=
  match w with InWait _ size _ => Z.of_N size | _ => 0 end.

(** The worker's locals, while it has any. *)
Definition locals_of (w : worker) : option locals :=
  match w with
  | InPerform l | InWait l _ _ => Some l
  | _ => None
  end.

(** While the worker is inside [perform]: the counter is the resume
    position [R] plus what was written, and what the rest of the schedule
    can still add fits in 64 bits. *)
Definition counted (R : Z) (rest : list label) (d : Downloader) : Prop :=
  match locals_of (workerThread_ d) with
  | Some l =>
    resumeFrom l = R /\
    downloadedBytes_ d = R + of_written (outFile l) /\
    0 <= of_written (outFile l) /\
    downloadedBytes_ d + pending (workerThread_ d) + offered rest
      <= Int64.max_signed
  | None => workerThread_ d <> Spawned /\ R <= downloadedBytes_ d
  end.






(** A 1024-byte file is on disk; the handle serves the remaining 1024 of
    2048 bytes and last reports the full size, as the test double does. *)
Definition resume_1024 : list label :=
  [ WorkerBegin (Some 1024) true FactoryHandle;
    ProgressCb 1024 0; WriteCb 1024 true;
    ProgressCb 2048 1024;
    PerformReturns OK 206 "" ].

(** The state a terminal event announces. *)
Definition outcome_of (e : event) : option DownloadState :=
  match e with
  | onCompleted => Some COMPLETED
  | onCancelled => Some CANCELLED
  | onError _ => Some ERROR
  | _ => None
  end.

(** A schedule in which observer [o] is not registered. *)
Definition never_adds (o : observer) (sched : list label) : bool :=
  forallb (fun a => match a with
                    | AddObserver o' => negb (N.eqb o' o)
                    | _ => true
                    end) sched.

(** The message [doDownload] attaches to a result of [perform] other than
    [OK]. *)
Definition failure_message (result : CurlResult) (lastError : string)
  : string :=
  match result with
  | ABORTED_BY_CALLBACK => ("Download aborted: " ++ lastError)%string
  | NETWORK_ERROR => ("Network error: " ++ lastError)%string
  | RANGE_NOT_SATISFIED =>
    "Server does not support resume (Range not satisfied)"
  | _ => ("Download failed: " ++ lastError)%string
  end.

(** The message of a failure before the transfer, if the attempt has one:
    the output stream is tested first, then what the factory did. *)
Definition setup_failure (open_ok : bool) (made : factory_result)
    (outputPath : string) : option string :=
  if open_ok then
    match made with
    | FactoryHandle => None
    | FactoryNull => Some "Failed to create curl handle"%string
    | FactoryThrows what => Some ("Unexpected exception: " ++ what)%string
    | FactoryThrowsOther => Some "Unknown exception in worker thread"%string
    end
  else Some ("Failed to open output file: " ++ outputPath)%string.

(** The labels that are moves of the worker thread. *)
Definition is_worker_move (a : label) : bool :=
  match a with
  | WorkerBegin _ _ _ | WriteCb _ _ | ProgressCb _ _ | Wake
  | PerformReturns _ _ _ => true
  | _ => false
  end.

(* ===================================================================== *)
(** ** The production handle ([CurlHandle.cpp])                            *)
(* ===================================================================== *)

(** The libcurl result codes that [toCurlResult] tells apart; every other
    code of the library is [CURLE_other]. *)
Inductive CURLcode : Type :=
| CURLE_OK
| CURLE_WRITE_ERROR
| CURLE_ABORTED_BY_CALLBACK
| CURLE_COULDNT_CONNECT
| CURLE_COULDNT_RESOLVE_HOST
| CURLE_COULDNT_RESOLVE_PROXY
| CURLE_OPERATION_TIMEDOUT
| CURLE_RECV_ERROR
| CURLE_SEND_ERROR
| CURLE_RANGE_ERROR
| CURLE_other (code : N).

(** [CurlHandle::toCurlResult] *)
Definition toCurlResult (code : CURLcode) : CurlResult :=
  match code with
  | CURLE_OK => OK
  | CURLE_WRITE_ERROR => ABORTED_BY_CALLBACK
  | CURLE_ABORTED_BY_CALLBACK => ABORTED_BY_CALLBACK
  | CURLE_COULDNT_CONNECT
  | CURLE_COULDNT_RESOLVE_HOST
  | CURLE_COULDNT_RESOLVE_PROXY
  | CURLE_OPERATION_TIMEDOUT
  | CURLE_RECV_ERROR
  | CURLE_SEND_ERROR => NETWORK_ERROR
  | CURLE_RANGE_ERROR => RANGE_NOT_SATISFIED
  | CURLE_other _ => OTHER_ERROR
  end.

(** [CurlHandle::getLastError]; [errorBuffer] is the text curl left in
    [errorBuffer_]. *)
Definition getLastError (errorBuffer : string) : string :=
  match errorBuffer with
  | EmptyString => "Unknown curl error"
  | _ => errorBuffer
  end.

(* ===================================================================== *)
(** ** The test double ([MockCurlHandle.h])                                *)
(* ===================================================================== *)

(** [size_t] arithmetic. *)
Module SizeT.

Definition wrap (z : Z) : N := Z.to_N (z mod 2 ^ 64).
Definition add (a b : N) : N := wrap (Z.of_N a + Z.of_N b).
Definition sub (a b : N) : N := wrap (Z.of_N a - Z.of_N b).

(** [static_cast<size_t>(n)] for an [int64_t]. *)
Definition of_int64 (n : Z) : N := wrap n.

End SizeT.

(** [struct MockConfig], without the delay between chunks. *)
Record MockConfig : Type := mk_MockConfig {
  totalSize     : N;
  chunkSize     : N;
  returnResult  : CurlResult;
  httpCode      : Z;
  errorMessage  : string;
  supportsRange : bool
}.

(** How a call of [MockCurlHandle::perform] can go: it returns (with the
    status code the double then answers), it is held inside a write
    callback that blocks, or it is still looping when the fuel is spent. *)
Inductive performed : Type :=
| Returned (result : CurlResult) (code : Z) (d : Downloader)
| Held (d : Downloader)
| Looping.

Definition CurlResult_eqb (a b : CurlResult) : bool :=
  match a, b with
  | OK, OK | ABORTED_BY_CALLBACK, ABORTED_BY_CALLBACK
  | HTTP_ERROR, HTTP_ERROR | NETWORK_ERROR, NETWORK_ERROR
  | RANGE_NOT_SATISFIED, RANGE_NOT_SATISFIED
  | OTHER_ERROR, OTHER_ERROR => true
  | _, _ => false
  end.

(** The [while (sent < totalSize)] loop of [perform].  [rf] is
    [resumeFrom_]; [io_ok] says, for the number of bytes sent so far,
    whether the disk takes the next chunk.  The callbacks are the ones
    [doDownload] registered; they act on the engine [d], whose worker is
    inside [perform] (a worker that is not cannot be called back). *)
Fixpoint mock_loop (fuel : nat) (cfg : MockConfig) (rf : Z)
    (io_ok : N -> bool) (sent : N) (d : Downloader) : performed :=
  if (sent <? totalSize cfg)%N then
    match fuel with
    | O => Looping
    | S fuel' =>
      let remaining := SizeT.sub (totalSize cfg) sent in
      let toSend := N.min (chunkSize cfg) remaining in
      let dlnow := Int64.of_size_t (SizeT.sub sent (SizeT.of_int64 rf)) in
      let dltotal :=
        Int64.of_size_t (SizeT.sub (totalSize cfg) (SizeT.of_int64 rf)) in
      let p := progressCallback dltotal dlnow d in
      if negb (fst p =? 0) then
        Returned ABORTED_BY_CALLBACK (httpCode cfg) (snd p)
      else
        match workerThread_ (snd p) with
        | InPerform l =>
          match writeCallback toSend (io_ok sent) l (snd p) with
          | (None, d2) => Held d2
          | (Some written, d2) =>
            if negb (written =? toSend)%N then
              Returned ABORTED_BY_CALLBACK (httpCode cfg) d2
            else mock_loop fuel' cfg rf io_ok (SizeT.add sent toSend) d2
          end
        | _ => Held (snd p)
        end
    end
  else
    Returned (returnResult cfg) (httpCode cfg)
      (snd (progressCallback
              (Int64.of_size_t (totalSize cfg))
              (Int64.of_size_t
                 (SizeT.sub (totalSize cfg) (SizeT.of_int64 rf)))
              d)).

(** [MockCurlHandle::perform] *)
Definition mock_perform (fuel : nat) (cfg : MockConfig) (rf : Z)
    (io_ok : N -> bool) (d : Downloader) : performed :=
  if negb (CurlResult_eqb (returnResult cfg) OK)
     && negb (CurlResult_eqb (returnResult cfg) ABORTED_BY_CALLBACK)
  then Returned (returnResult cfg) (httpCode cfg) d
  else if (0 <? rf) && negb (supportsRange cfg)
  then Returned RANGE_NOT_SATISFIED 416 d
  else mock_loop fuel cfg rf io_ok (SizeT.of_int64 rf) d.

(** [MockCurlHandle::getLastError] *)
Definition mock_getLastError (cfg : MockConfig) : string :=
  match errorMessage cfg with
  | EmptyString => "Mock error"
  | m => m
  end.

(** One whole run of [doDownload] against the test double, nobody else
    touching the engine meanwhile. *)
Definition mock_download (fuel : nat) (cfg : MockConfig) (io_ok : N -> bool)
    (existing : option Z) (d : Downloader) : option Downloader :=
  let d1 := doDownload_begin existing true FactoryHandle d in
  match workerThread_ d1 with
  | InPerform l =>
    let rf := match curl_resumeFrom (curl l) with
              | Some n => n
              | None => 0
              end in
    match mock_perform fuel cfg rf io_ok d1 with
    | Returned result code d2 =>
      Some (doDownload_resolve result code (mock_getLastError cfg) d2)
    | _ => None
    end
  | _ => None
  end.

(** The engine at a point where the test double is between two chunks of
    an undisturbed transfer: [sent] bytes are on disk and counted, no flag
    is set, and only progress events have been raised since [base]. *)
Definition steady (cfg : MockConfig) (R : Z) (s : DownloadState)
    (base : list event) (sent : N) (d : Downloader) : Prop :=
  (exists l, workerThread_ d = InPerform l /\ of_failbit (outFile l) = false)
  /\ cancelRequested_ d = false
  /\ pauseRequested_ d = false
  /\ state_ d = s
  /\ downloadedBytes_ d = Z.of_N sent
  /\ R <= Z.of_N sent <= Z.of_N (totalSize cfg)
  /\ (totalSize cfg = 0%N -> totalBytes_ d = 0)
  /\ exists evs, calls d = base ++ evs /\ forallb is_progress evs = true.

(** The configuration of the test "OnCompleted_CalledAfterSuccessfulDownload". *)
Definition mock_4096 : MockConfig :=
  {| totalSize := 4096; chunkSize := 1024; returnResult := OK;
     httpCode := 200; errorMessage := ""; supportsRange := true |}.

(* ===================================================================== *)
(** ** Single accesses                                                     *)
(* ===================================================================== *)

(** The pieces above are not indivisible in the program: [pause],
    [resume] and [cancel] make two stores each, a callback tests the flags
    before it acts, and the code after [perform] tests, notifies and
    stores in separate statements.  In the model of this section every
    load, store or compare-exchange of [state_], [pauseRequested_] or
    [cancelRequested_] is a move of its own, and so is every [notify*]
    call (its loop runs under [observerMutex_]); calls of [pause],
    [resume] and [cancel] may overlap in any number, from any thread.
    What only the worker writes (its stream and, during an attempt, the
    two counters) goes with the access that follows it.

    Two things stay as they are in the model of pieces.  [startDownload]
    is one move, made when its [join] returns: the worker is gone by then,
    and a store of a flag that lands among its own stores has the effect
    of one landing before or after the call.  The wait of [waitIfPaused]
    may re-test its predicate at any time, as with spurious wake-ups, so
    [notify_all] needs no move. *)

(** Where the worker stands inside a callback or after [perform]. *)
Inductive point : Type :=
| Rest                                      (* in none of them *)
| AtPauseTest (size : N) (io_ok : bool)     (* write callback, past the test of the cancel flag *)
| AtNotifyPaused (size : N) (io_ok : bool)  (* [waitIfPaused] entered *)
| AtWaitPause (size : N) (io_ok : bool)     (* wait predicate, first operand *)
| AtWaitCancel (size : N) (io_ok : bool)    (* wait predicate, second operand *)
| AtWaitExit (size : N) (io_ok : bool)      (* wait over, cancel test of [waitIfPaused] *)
| AtNotifyResumed (size : N) (io_ok : bool)
| AtWrite (size : N) (io_ok : bool)         (* [outFile.write] and [fetch_add] *)
| AtProgress (dltotal dlnow : Z)            (* progress callback, past the test of the cancel flag *)
| AtStateTest (result : CurlResult) (httpCode : Z) (lastError : string)
| AtFinalProgress                           (* the 100% progress notification *)
| AtStore (s : DownloadState) (e : event)   (* [state_.store(s)], then notify [e] *)
| AtNotify (e : event).                     (* notify [e], then return *)

(** The engine, the worker's point, and the stores of [pauseRequested_]
    that calls in progress still have to make: [owed_true] by calls of
    [pause] whose compare-exchange succeeded, [owed_false] by calls of
    [resume] whose compare-exchange succeeded and by calls of [cancel]
    that have set the cancel flag.  [workerThread_] is never [InWait]
    here: the wait is a point. *)
Record threads : Type := mk_threads {
  engine     : Downloader;
  at_        : point;
  owed_true  : nat;
  owed_false : nat
}.

Definition fresh : threads :=
  {| engine := init; at_ := Rest; owed_true := 0; owed_false := 0 |}.

Inductive access : Type :=
| CallAddObserver (o : observer)
| CallRemoveObserver (o : observer)
| CallStartDownload (url outputPath : string)
| PauseExchange                 (* compare-exchange of [pause] *)
| ResumeExchange                (* compare-exchange of [resume] *)
| CancelStore                   (* first store of [cancel] *)
| FlagStore (v : bool)          (* a store of [pauseRequested_] that is owed *)
| Begin (existing : option Z) (open_ok : bool) (made : factory_result)
| EnterWrite (size : N) (io_ok : bool)   (* the handle calls the write callback *)
| EnterProgress (dltotal dlnow : Z)      (* the handle calls the progress callback *)
| Returns (result : CurlResult) (httpCode : Z) (lastError : string)
| Next.                         (* the worker's next access *)

(** The progress callback after its test of the cancel flag. *)
Definition progress_body (dltotal dlnow : Z) (d : Downloader) : Downloader :=
  let baseOffset := Int64.sub (downloadedBytes_ d) dlnow in
  let d1 := if 0 <? dltotal
            then set_totalBytes (Int64.add dltotal baseOffset) d
            else d in
  let downloaded := downloadedBytes_ d1 in
  let total := totalBytes_ d1 in
  notifyProgress downloaded total (percent_of downloaded total) d1.

(** The worker's next access, by the point it stands at. *)
Definition next (s : threads) : option threads :=
  let d := engine s in
  let t := owed_true s in
  let f := owed_false s in
  match at_ s with
  | Rest => None
  | AtPauseTest size io_ok =>
    Some (mk_threads d
            (if pauseRequested_ d then AtNotifyPaused size io_ok
             else AtWrite size io_ok) t f)
  | AtNotifyPaused size io_ok =>
    Some (mk_threads (notifyPaused d) (AtWaitPause size io_ok) t f)
  | AtWaitPause size io_ok =>
    Some (mk_threads d
            (if pauseRequested_ d then AtWaitCancel size io_ok
             else AtWaitExit size io_ok) t f)
  | AtWaitCancel size io_ok =>
    Some (mk_threads d
            (if cancelRequested_ d then AtWaitExit size io_ok
             else AtWaitPause size io_ok) t f)
  | AtWaitExit size io_ok =>
    Some (mk_threads d
            (if cancelRequested_ d then Rest
             else AtNotifyResumed size io_ok) t f)
  | AtNotifyResumed size io_ok =>
    Some (mk_threads (notifyResumed d) (AtWrite size io_ok) t f)
  | AtWrite size io_ok =>
    match workerThread_ d with
    | InPerform l =>
      Some (mk_threads (snd (write_chunk size io_ok l d)) Rest t f)
    | _ => None
    end
  | AtProgress dltotal dlnow =>
    Some (mk_threads (progress_body dltotal dlnow d) Rest t f)
  | AtStateTest result httpCode lastError =>
    Some (mk_threads d
            (if DownloadState_eqb (state_ d) PAUSED
             then AtStore CANCELLED onCancelled
             else
               match result with
               | OK =>
                 if 400 <=? httpCode
                 then AtStore ERROR
                        (onError ("HTTP error: " ++ to_string httpCode)%string)
                 else AtFinalProgress
               | _ => AtStore ERROR
                        (onError (failure_message result lastError))
               end) t f)
  | AtFinalProgress =>
    let total := totalBytes_ d in
    let downloaded := downloadedBytes_ d in
    Some (mk_threads
            (notifyProgress downloaded
               (if 0 <? total then total else downloaded) PercentFull d)
            (AtStore COMPLETED onCompleted) t f)
  | AtStore v e => Some (mk_threads (set_state v d) (AtNotify e) t f)
  | AtNotify e => Some (mk_threads (finish (notify e d)) Rest t f)
  end.

(** One access; [None] when it cannot be made in this state. *)
Definition act (a : access) (s : threads) : option threads :=
  let d := engine s in
  let p := at_ s in
  let t := owed_true s in
  let f := owed_false s in
  match a with
  | CallAddObserver o => Some (mk_threads (addObserver o d) p t f)
  | CallRemoveObserver o => Some (mk_threads (removeObserver o d) p t f)
  | CallStartDownload url outputPath =>
    match startDownload url outputPath d with
    | Some (_, d') => Some (mk_threads d' p t f)
    | None => None
    end
  | PauseExchange =>
    match state_ d with
    | DOWNLOADING => Some (mk_threads (set_state PAUSED d) p (S t) f)
    | _ => Some s
    end
  | ResumeExchange =>
    match state_ d with
    | PAUSED => Some (mk_threads (set_state DOWNLOADING d) p t (S f))
    | _ => Some s
    end
  | CancelStore => Some (mk_threads (set_cancelRequested true d) p t (S f))
  | FlagStore true =>
    match t with
    | S t' => Some (mk_threads (set_pauseRequested true d) p t' f)
    | O => None
    end
  | FlagStore false =>
    match f with
    | S f' => Some (mk_threads (set_pauseRequested false d) p t f')
    | O => None
    end
  | Begin existing open_ok made =>
    match workerThread_ d, p with
    | Spawned, Rest =>
      match setup_failure open_ok made (outputPath_ d) with
      | Some msg =>
        Some (mk_threads (set_downloadedBytes (resume_offset existing) d)
                (AtStore ERROR (onError msg)) t f)
      | None =>
        Some (mk_threads (doDownload_begin existing open_ok made d) Rest t f)
      end
    | _, _ => None
    end
  | EnterWrite size io_ok =>
    match workerThread_ d, p with
    | InPerform _, Rest =>
      Some (if cancelRequested_ d then s
            else mk_threads d (AtPauseTest size io_ok) t f)
    | _, _ => None
    end
  | EnterProgress dltotal dlnow =>
    match workerThread_ d, p with
    | InPerform _, Rest =>
      Some (if cancelRequested_ d then s
            else mk_threads d (AtProgress dltotal dlnow) t f)
    | _, _ => None
    end
  | Returns result httpCode lastError =>
    match workerThread_ d, p with
    | InPerform _, Rest =>
      Some (mk_threads d
              (if cancelRequested_ d then AtStore CANCELLED onCancelled
               else AtStateTest result httpCode lastError) t f)
    | _, _ => None
    end
  | Next => next s
  end.

Fixpoint acts (l : list access) (s : threads) : option threads :=
  match l with
  | [] => Some s
  | a :: rest =>
    match act a s with
    | Some s' => acts rest s'
    | None => None
    end
  end.

Definition attainable (s : threads) : Prop :=
  exists l, acts l fresh = Some s.

Definition is_call_start (a : access) : bool :=
  match a with CallStartDownload _ _ => true | _ => false end.

Definition no_start (l : list access) : bool :=
  forallb (fun a => negb (is_call_start a)) l.

(** The state a list of accesses leads to (the starting state if it cannot
    be made). *)
Definition after_acts (l : list access) (s : threads) : threads :=
  match acts l s with Some s' => s' | None => s end.

(** The worker thread exists and has not returned (it is never [InWait]
    in this model). *)
Definition at_work (w : worker) : bool :=
  match w with Spawned | InPerform _ => true | _ => false end.

(** The worker has not yet made the store that ends its attempt. *)
Definition before_store (s : threads) : bool :=
  match at_ s with
  | AtNotify _ => false
  | _ => at_work (workerThread_ (engine s))
  end.

Definition final (v : DownloadState) : bool :=
  match v with COMPLETED | CANCELLED | ERROR => true | _ => false end.

(** What holds of every state the model of this section can reach. *)
Record settled (s : threads) : Prop := mk_settled {
  (* the state is active exactly until the worker's store *)
  st_active : before_store s = active (state_ (engine s));
  (* the worker stores COMPLETED, CANCELLED or ERROR only *)
  st_store  : match at_ s with AtStore v _ => final v | _ => true end = true;
  (* outside a running worker there is no point to stand at *)
  st_rest   : match at_ s with
              | Rest => true
              | _ => at_work (workerThread_ (engine s))
              end = true
}.

(** The points from which the worker tests the cancel flag before it
    writes, counts or notifies anything: no callback in progress, or
    inside the wait of [waitIfPaused]. *)
Definition guarded (p : point) : bool :=
  match p with
  | Rest | AtWaitPause _ _ | AtWaitCancel _ _ | AtWaitExit _ _ => true
  | _ => false
  end.

(** The chunk of a write callback that has passed its last test of the
    cancel flag, or may still pass it without a further test of it. *)
Definition in_flight (p : point) : N :=
  match p with
  | AtPauseTest size _ | AtNotifyResumed size _ | AtWrite size _ => size
  | _ => 0%N
  end.

(** After the cancel flag was set with the worker at a guarded point:
    the counters stand at [B] and [T]; the log is [C] until the attempt
    has ended CANCELLED, and [C] with the cancelled event after that. *)
Definition cancelling (B T : Z) (C : list event) (s : threads) : Prop :=
  cancelRequested_ (engine s) = true /\
  downloadedBytes_ (engine s) = B /\
  totalBytes_ (engine s) = T /\
  match workerThread_ (engine s), at_ s with
  | InPerform _, (Rest | AtWaitPause _ _ | AtWaitCancel _ _ | AtWaitExit _ _)
  | InPerform _, AtStore CANCELLED onCancelled =>
    calls (engine s) = C
  | InPerform _, AtNotify onCancelled =>
    calls (engine s) = C /\ state_ (engine s) = CANCELLED
  | Exited, Rest =>
    calls (engine s) = C ++ [onCancelled] /\ state_ (engine s) = CANCELLED
  | _, _ => False
  end.

(** After the cancel flag was set with the counter at [B], wherever the
    worker stood: a chunk of [c] bytes in flight is still to be written,
    or the counter has settled at [B] or at [B] plus that chunk. *)
Definition draining (B : Z) (c : N) (s : threads) : Prop :=
  cancelRequested_ (engine s) = true /\
  workerThread_ (engine s) <> Spawned /\
  match at_ s with
  | AtPauseTest size _ | AtNotifyResumed size _ | AtWrite size _ =>
    downloadedBytes_ (engine s) = B /\ size = c
  | _ =>
    downloadedBytes_ (engine s) = B \/
    downloadedBytes_ (engine s) = Int64.add B (Int64.of_size_t c)
  end.

(** A state of the piecewise model as a state of this one: no call in
    progress, and a worker blocked in the wait stands at its predicate. *)
Definition embed (d : Downloader) : threads :=
  match workerThread_ d with
  | InWait l size io_ok =>
    mk_threads (set_workerThread (InPerform l) d) (AtWaitPause size io_ok) 0 0
  | _ => mk_threads d Rest 0 0
  end.

(** The accesses a piece is made of when nothing else moves meanwhile. *)
Definition pieces (a : label) (d : Downloader) : list access :=
  match a with
  | AddObserver o => [CallAddObserver o]
  | RemoveObserver o => [CallRemoveObserver o]
  | StartDownload url outputPath => [CallStartDownload url outputPath]
  | Pause =>
    match state_ d with
    | DOWNLOADING => [PauseExchange; FlagStore true]
    | _ => [PauseExchange]
    end
  | Resume =>
    match state_ d with
    | PAUSED => [ResumeExchange; FlagStore false]
    | _ => [ResumeExchange]
    end
  | Cancel => [CancelStore; FlagStore false]
  | WorkerBegin existing open_ok made =>
    match setup_failure open_ok made (outputPath_ d) with
    | Some _ => [Begin existing open_ok made; Next; Next]
    | None => [Begin existing open_ok made]
    end
  | WriteCb size io_ok =>
    if cancelRequested_ d then [EnterWrite size io_ok]
    else [EnterWrite size io_ok; Next; Next]
  | ProgressCb dltotal dlnow =>
    if cancelRequested_ d then [EnterProgress dltotal dlnow]
    else [EnterProgress dltotal dlnow; Next]
  | Wake =>
    match pauseRequested_ d, cancelRequested_ d with
    | true, true => [Next; Next; Next]
    | true, false => [Next; Next]
    | false, true => [Next; Next]
    | false, false => [Next; Next; Next; Next]
    end
  | PerformReturns result httpCode lastError =>
    Returns result httpCode lastError ::
    (if cancelRequested_ d then [Next; Next]
     else if DownloadState_eqb (state_ d) PAUSED then [Next; Next; Next]
     else match result with
          | OK => if 400 <=? httpCode then [Next; Next; Next]
                  else [Next; Next; Next; Next]
          | _ => [Next; Next; Next]
          end)
  end.

(* ===================================================================== *)
(** ** The state machine                                                   *)
(* ===================================================================== *)

(** The state changes the code can make: [startDownload] from a state
    that is not active, the compare-exchanges of [pause] and [resume],
    and the worker's store of its verdict, which does not look at the
    state it replaces. *)
Definition transition (s s' : DownloadState) : bool :=
  match s, s' with
  | (IDLE | COMPLETED | CANCELLED | ERROR), DOWNLOADING => true
  | DOWNLOADING, PAUSED => true
  | PAUSED, DOWNLOADING => true
  | (DOWNLOADING | PAUSED), (COMPLETED | CANCELLED | ERROR) => true
  | _, _ => false
  end.

(* ===================================================================== *)
(** ** Scenarios                                                           *)
(* ===================================================================== *)

(** The state a schedule leads to (the starting state if it cannot run). *)
Definition after (sched : list label) (d : Downloader) : Downloader :=
  match run sched d with Some d' => d' | None => d end.

Definition file_url : string := "http://example.com/file.bin".
Definition file_path : string := "/tmp/downloader_test_output.bin".

(** One observer registered, then [startDownload]. *)
Definition started : Downloader :=
  after [AddObserver 1%N; StartDownload file_url file_path] init.

(** A handle that serves 4096 bytes in chunks of 1024, reporting progress
    before each chunk and once at the end, with no file on disk. *)
Definition serve_4096 : list label :=
  [ WorkerBegin None true FactoryHandle;
    ProgressCb 4096 0;    WriteCb 1024 true;
    ProgressCb 4096 1024; WriteCb 1024 true;
    ProgressCb 4096 2048; WriteCb 1024 true;
    ProgressCb 4096 3072; WriteCb 1024 true;
    ProgressCb 4096 4096 ].

(** The same for 2048 bytes. *)
Definition serve_2048 : list label :=
  [ WorkerBegin None true FactoryHandle;
    ProgressCb 2048 0;    WriteCb 1024 true;
    ProgressCb 2048 1024; WriteCb 1024 true;
    ProgressCb 2048 2048 ].

(** A handle that serves an empty body. *)
Definition serve_empty : list label :=
  [ WorkerBegin None true FactoryHandle; ProgressCb 0 0 ].

(** A schedule in which observer [o] is not removed. *)
Definition keeps (o : observer) (sched : list label) : bool :=
  forallb (fun a => match a with
                    | RemoveObserver o' => negb (N.eqb o' o)
                    | _ => true
                    end) sched.

(** Three registrations of observer 7, a start, and a complete download of
    2048 bytes. *)
Definition thrice_then_download : list label :=
  [AddObserver 7%N; AddObserver 7%N; AddObserver 7%N;
   StartDownload file_url file_path]
  ++ serve_2048 ++ [PerformReturns OK 200 ""].

(** The engine blocked in the pause wait: 2048 bytes to serve, the first
    chunk held back by a [pause]. *)
Definition blocked : Downloader :=
  after [WorkerBegin None true FactoryHandle; ProgressCb 2048 0;
         Pause; WriteCb 1024 true] started.

(** The engine inside [perform], one progress report made. *)
Definition performing : Downloader :=
  after [WorkerBegin None true FactoryHandle; ProgressCb 2048 0] started.

(** A pause that lands between the 100% progress notification and the
    store of COMPLETED. *)
Definition pause_before_store : list access :=
  [ CallAddObserver 1%N; CallStartDownload file_url file_path;
    Begin None true FactoryHandle;
    EnterProgress 1024 0; Next;
    EnterWrite 1024 true; Next; Next;
    EnterProgress 1024 1024; Next;
    Returns OK 200 ""; Next; Next;
    PauseExchange ].

(** A cancel that lands after a write callback has tested the flag. *)
Definition cancel_after_test : list access :=
  [ CallAddObserver 1%N; CallStartDownload file_url file_path;
    Begin None true FactoryHandle;
    EnterProgress 2048 0; Next;
    EnterWrite 1024 true;
    CancelStore; FlagStore false ].

(* ===================================================================== *)
(** ** Facts about 64-bit arithmetic                                       *)
(* ===================================================================== *)

Module Int64Facts.

Lemma wrap_in_range z : Int64.in_range (Int64.wrap z).
Proof.
  unfold Int64.in_range, Int64.wrap, Int64.min_signed, Int64.max_signed,
    Int64.modulus, Int64.half_modulus.
  pose proof (Z.mod_pos_bound (z + 2 ^ 63) (2 ^ 64) ltac:(lia)). lia.
Qed.

Lemma wrap_id z : Int64.in_range z -> Int64.wrap z = z.
Proof.
  unfold Int64.in_range, Int64.wrap, Int64.min_signed, Int64.max_signed,
    Int64.modulus, Int64.half_modulus.
  intros H. rewrite Z.mod_small; lia.
Qed.

Lemma add_exact a b : Int64.in_range (a + b) -> Int64.add a b = a + b.
Proof. apply wrap_id. Qed.

Lemma sub_exact a b : Int64.in_range (a - b) -> Int64.sub a b = a - b.
Proof. apply wrap_id. Qed.

Lemma of_size_t_exact n : Z.of_N n <= Int64.max_signed -> Int64.of_size_t n = Z.of_N n.
Proof.
  intros H. apply wrap_id. unfold Int64.in_range, Int64.min_signed, Int64.half_modulus. lia.
Qed.

End Int64Facts.

(* ===================================================================== *)
(** ** Running schedules                                                   *)
(* ===================================================================== *)

Lemma DownloadState_eqb_eq a b : DownloadState_eqb a b = true <-> a = b.
Proof. destruct a, b; simpl; split; intros H; congruence. Qed.

Lemma run_app s1 s2 d :
  run (s1 ++ s2) d =
  match run s1 d with Some d1 => run s2 d1 | None => None end.
Proof.
  revert d. induction s1 as [|a s1 IH]; intros d; simpl.
  - reflexivity.
  - destruct (exec a d); auto.
Qed.

Lemma run_cons_inv a sched d d' :
  run (a :: sched) d = Some d' ->
  exists d1, exec a d = Some d1 /\ run sched d1 = Some d'.
Proof. simpl. destruct (exec a d) as [d1|]; [eauto | discriminate]. Qed.

Lemma run_snoc_inv sched a d d' :
  run (sched ++ [a]) d = Some d' ->
  exists d1, run sched d = Some d1 /\ exec a d1 = Some d'.
Proof.
  rewrite run_app. destruct (run sched d) as [d1|]; [|discriminate].
  simpl. destruct (exec a d1) eqn:E; [|discriminate].
  intros H. injection H as <-. eauto.
Qed.



#[local] Arguments Int64.wrap : simpl never.
#[local] Arguments Int64.add : simpl never.
#[local] Arguments Int64.sub : simpl never.
#[local] Arguments Int64.of_size_t : simpl never.
#[local] Arguments to_string : simpl never.
#[local] Arguments String.append : simpl never.
#[local] Arguments Z.ltb : simpl never.
#[local] Arguments Z.leb : simpl never.
#[local] Arguments Z.add : simpl never.

Ltac unfold_engine :=
  unfold exec, addObserver, removeObserver, startDownload, pause, resume,
    cancel, doDownload_begin, writeCallback, waitIfPaused_wake, write_chunk,
    progressCallback, doDownload_resolve, option_map in *.

Ltac split_cases :=
  repeat match goal with
         | H : context [match ?x with _ => _ end] |- _ => destruct x eqn:?
         | H : context [if ?x then _ else _] |- _ => destruct x eqn:?
         | H : Some _ = Some _ |- _ => injection H as <-
         | H : None = Some _ |- _ => discriminate H
         | |- context [match ?x with _ => _ end] => destruct x eqn:?
         | |- context [if ?x then _ else _] => destruct x eqn:?
         end.

Ltac use_eqns :=
  repeat match goal with
         | E : state_ ?d = _ |- context [state_ ?d] => rewrite E
         | E : workerThread_ ?d = _ |- context [workerThread_ ?d] => rewrite E
         | E : cancelRequested_ ?d = _ |- context [cancelRequested_ ?d] =>
           rewrite E
         | E : pauseRequested_ ?d = _ |- context [pauseRequested_ ?d] =>
           rewrite E
         end.

(** Every move appends to the two logs, and what it appends to [delivered]
    is the fan-out of what it appends to [calls] over the observers
    registered when the move begins. *)
Lemma exec_logs a d d' :
  exec a d = Some d' ->
  exists evs,
    calls d' = calls d ++ evs /\
    delivered d' = delivered d ++ fanout (observers_ d) evs /\
    (running (workerThread_ d') = true ->
     forallb (fun e => negb (terminal e)) evs = true).
Proof.
  intros H. destruct a; unfold_engine; split_cases; simpl;
    rewrite <- ?app_assoc;
    (eexists; split; [try reflexivity; symmetry; apply app_nil_r |]);
    (split; [unfold fanout; simpl; rewrite ?app_nil_r; reflexivity
            | intros; try discriminate; reflexivity]).
Qed.


Lemma exec_observers a d d' :
  exec a d = Some d' -> is_registry_op a = false ->
  observers_ d' = observers_ d.
Proof.
  intros H Hop. destruct a; try discriminate Hop;
    unfold_engine; split_cases; reflexivity.
Qed.

(** Without a restart, a worker that is not running stays as it is and
    nothing is notified. *)
Lemma exec_not_running a d d' :
  exec a d = Some d' -> is_start a = false ->
  running (workerThread_ d) = false ->
  workerThread_ d' = workerThread_ d /\ calls d' = calls d.
Proof.
  intros H Hs Hr. destruct a; try discriminate Hs;
    unfold_engine; split_cases; simpl in *; try discriminate; auto;
    rewrite ?Heqw in *; try discriminate.
Qed.

Lemma run_not_running sched d d' :
  no_restart sched = true -> running (workerThread_ d) = false ->
  run sched d = Some d' ->
  workerThread_ d' = workerThread_ d /\ calls d' = calls d.
Proof.
  revert d. induction sched as [|a sched IH]; intros d Hn Hr H; simpl in *.
  - injection H as <-. auto.
  - apply andb_prop in Hn as [Ha Hn]. apply negb_true_iff in Ha.
    destruct (exec a d) as [d1|] eqn:E; [|discriminate].
    destruct (exec_not_running _ _ _ E Ha Hr) as [Hw Hc].
    destruct (IH d1 Hn) as [Hw' Hc']; [congruence | assumption |].
    split; congruence.
Qed.


(** While the worker of an attempt is still running, no terminal event
    has been raised for that attempt. *)
Lemma in_flight_quiet sched d d' :
  no_restart sched = true -> run sched d = Some d' ->
  running (workerThread_ d') = true ->
  exists evs, calls d' = calls d ++ evs /\ quiet evs = true.
Proof.
  revert d. induction sched as [|a sched IH]; intros d Hn H Hr; simpl in *.
  - injection H as <-. exists []. rewrite app_nil_r. auto.
  - apply andb_prop in Hn as [Ha Hn]. apply negb_true_iff in Ha.
    destruct (exec a d) as [d1|] eqn:E; [|discriminate].
    destruct (running (workerThread_ d1)) eqn:R1.
    + destruct (exec_logs _ _ _ E) as (evs1 & Hc1 & _ & Hq1).
      destruct (IH d1 Hn H Hr) as (evs2 & Hc2 & Hq2).
      exists (evs1 ++ evs2). split.
      * rewrite Hc2, Hc1, app_assoc. reflexivity.
      * unfold quiet in *. rewrite forallb_app, Hq1, Hq2; auto.
    + destruct (run_not_running _ _ _ Hn R1 H) as [Hw _].
      rewrite Hw in Hr. congruence.
Qed.

Lemma count_app p l1 l2 : count p (l1 ++ l2) = (count p l1 + count p l2)%nat.
Proof. unfold count. rewrite filter_app, length_app. reflexivity. Qed.

Lemma quiet_count p evs :
  quiet evs = true -> (forall e, p e = true -> terminal e = true) ->
  count p evs = 0%nat.
Proof.
  intros Hq Hp. unfold count. induction evs as [|e evs IH]; simpl in *; auto.
  apply andb_prop in Hq as [He Hq]. apply negb_true_iff in He.
  destruct (p e) eqn:Pe.
  - rewrite (Hp e Pe) in He. discriminate.
  - auto.
Qed.

Lemma quiet_counts evs :
  quiet evs = true ->
  count is_completed evs = 0%nat /\ count is_error evs = 0%nat /\
  count is_cancelled evs = 0%nat.
Proof.
  intros Hq. repeat split; apply quiet_count; auto;
    intros [] He; try discriminate He; reflexivity.
Qed.

(* ===================================================================== *)
(** ** Invariants of reachable engine states                               *)
(* ===================================================================== *)


Lemma registered_In o l : registered o l = true <-> In o l.
Proof.
  unfold registered. rewrite existsb_exists. split.
  - intros (x & Hx & E). apply N.eqb_eq in E. subst. assumption.
  - intros H. exists o. split; [assumption | apply N.eqb_refl].
Qed.

Lemma registered_not_In o l : registered o l = false <-> ~ In o l.
Proof.
  rewrite <- registered_In.
  destruct (registered o l); split; intros H;
    congruence || (exfalso; apply H; reflexivity).
Qed.

Lemma In_fanout x obs evs : In x (fanout obs evs) -> In (fst x) obs.
Proof.
  unfold fanout. rewrite in_flat_map. intros (e & _ & H).
  apply in_map_iff in H as (o & <- & Ho). assumption.
Qed.

Lemma addObserver_observers o d :
  observers_ (addObserver o d) =
  if N.eqb o nullptr then observers_ d
  else if registered o (observers_ d) then observers_ d
  else observers_ d ++ [o].
Proof.
  unfold addObserver.
  destruct (N.eqb o nullptr); [reflexivity|].
  destruct (registered o (observers_ d)); reflexivity.
Qed.

Lemma exec_worker_state a d d' :
  exec a d = Some d' ->
  running (workerThread_ d) = active (state_ d) ->
  running (workerThread_ d') = active (state_ d').
Proof.
  intros H Hw. revert Hw.
  destruct a; unfold_engine; split_cases; simpl; use_eqns; simpl; intros Hw;
    try assumption; try reflexivity; try discriminate Hw;
    match goal with
    | E : DownloadState_eqb _ _ = _ |- _ => try discriminate E
    | _ => idtac
    end.
Qed.

Lemma exec_invariant a d d' :
  exec a d = Some d' -> invariant d -> invariant d'.
Proof.
  intros H [Hd Hn Hl Hw]. constructor.
  - destruct a; try (rewrite (exec_observers _ _ _ H eq_refl); assumption).
    + simpl in H. injection H as <-. rewrite addObserver_observers.
      destruct (N.eqb o nullptr); [assumption|].
      destruct (registered o (observers_ d)) eqn:R; [assumption|].
      apply registered_not_In in R.
      apply NoDup_app; [assumption | repeat constructor; intros [] | ].
      intros x Hx [<- | []]. contradiction.
    + simpl in H. injection H as <-. simpl. apply NoDup_filter. assumption.
  - destruct a; try (rewrite (exec_observers _ _ _ H eq_refl); assumption).
    + simpl in H. injection H as <-. rewrite addObserver_observers.
      destruct (N.eqb o nullptr) eqn:E; [assumption|].
      destruct (registered o (observers_ d)); [assumption|].
      rewrite in_app_iff. intros [Hin | [Ho | []]]; [contradiction|].
      subst o. discriminate E.
    + simpl in H. injection H as <-. simpl. rewrite filter_In. tauto.
  - destruct (exec_logs _ _ _ H) as (evs & _ & Hdl & _).
    intros x. rewrite Hdl, in_app_iff. intros [Hx | Hx]; [auto|].
    apply In_fanout in Hx. congruence.
  - eapply exec_worker_state; eassumption.
Qed.

Lemma run_invariant sched d d' :
  run sched d = Some d' -> invariant d -> invariant d'.
Proof.
  revert d. induction sched as [|a sched IH]; intros d H Hi; simpl in H.
  - injection H as <-. assumption.
  - destruct (exec a d) as [d1|] eqn:E; [|discriminate].
    eauto using exec_invariant.
Qed.

Lemma init_invariant : invariant init.
Proof.
  constructor; simpl; auto using NoDup_nil.
Qed.

Lemma reachable_invariant d : reachable d -> invariant d.
Proof. intros [sched H]. eapply run_invariant; eauto using init_invariant. Qed.

Lemma reachable_run sched d d' :
  reachable d -> run sched d = Some d' -> reachable d'.
Proof.
  intros [s0 H0] H. exists (s0 ++ sched). rewrite run_app, H0. assumption.
Qed.

(* ===================================================================== *)
(** ** Resolving the outcome                                               *)
(* ===================================================================== *)

Lemma resolve_cancelled result httpCode lastError d :
  cancelRequested_ d = true \/ state_ d = PAUSED ->
  doDownload_resolve result httpCode lastError d =
  finish (notifyCancelled (set_state CANCELLED d)).
Proof.
  intros H. unfold doDownload_resolve.
  destruct (cancelRequested_ d); [reflexivity|].
  destruct H as [H | H]; [discriminate|]. rewrite H. reflexivity.
Qed.

Lemma not_paused s : s <> PAUSED -> DownloadState_eqb s PAUSED = false.
Proof. destruct s; intros H; try reflexivity. congruence. Qed.

Lemma resolve_completed httpCode lastError d :
  cancelRequested_ d = false -> state_ d <> PAUSED -> httpCode < 400 ->
  doDownload_resolve OK httpCode lastError d =
  finish (notifyCompleted
            (set_state COMPLETED
               (notifyProgress (downloadedBytes_ d)
                  (if 0 <? totalBytes_ d then totalBytes_ d
                   else downloadedBytes_ d)
                  PercentFull d))).
Proof.
  intros Hc Hs Hh. unfold doDownload_resolve.
  rewrite Hc, (not_paused _ Hs).
  destruct (400 <=? httpCode) eqn:E; [apply Z.leb_le in E; lia | reflexivity].
Qed.

Lemma resolve_http_error httpCode lastError d :
  cancelRequested_ d = false -> state_ d <> PAUSED -> 400 <= httpCode ->
  doDownload_resolve OK httpCode lastError d =
  finish (notifyError ("HTTP error: " ++ to_string httpCode)%string
                      (set_state ERROR d)).
Proof.
  intros Hc Hs Hh. unfold doDownload_resolve.
  rewrite Hc, (not_paused _ Hs).
  destruct (400 <=? httpCode) eqn:E; [reflexivity | apply Z.leb_gt in E; lia].
Qed.

Lemma exec_returns_inv result httpCode lastError d d' :
  exec (PerformReturns result httpCode lastError) d = Some d' ->
  (exists l, workerThread_ d = InPerform l) /\
  d' = doDownload_resolve result httpCode lastError d.
Proof.
  simpl. destruct (workerThread_ d); try discriminate.
  intros H. injection H as <-. eauto.
Qed.

(** The events of an attempt whose worker is about to resolve, followed by
    the terminal event [e]: [e] is the only terminal event. *)
Lemma one_terminal evs e :
  quiet evs = true ->
  count is_completed (evs ++ [e]) = count is_completed [e] /\
  count is_error (evs ++ [e]) = count is_error [e] /\
  count is_cancelled (evs ++ [e]) = count is_cancelled [e].
Proof.
  intros Hq. destruct (quiet_counts _ Hq) as (H1 & H2 & H3).
  rewrite !count_app, H1, H2, H3. auto.
Qed.

(** C2.  If [cancelRequested_] is set when the worker resolves the outcome
    after [perform] has returned, then whatever result, status code and
    error text the handle reports, the state becomes CANCELLED, every
    registered observer gets one [onCancelled], and the events of the
    attempt contain exactly one cancelled event, no error event and no
    completed event. *)
Theorem cancel_observed_at_exit
    sched d0 d1 d2 result httpCode lastError :
  workerThread_ d0 = Spawned ->
  no_restart sched = true ->
  run sched d0 = Some d1 ->
  cancelRequested_ d1 = true ->
  exec (PerformReturns result httpCode lastError) d1 = Some d2 ->
  state_ d2 = CANCELLED /\
  delivered d2 =
    delivered d1 ++ map (fun o => (o, onCancelled)) (observers_ d1) /\
  exists evs,
    calls d2 = calls d0 ++ evs /\
    count is_cancelled evs = 1%nat /\
    count is_error evs = 0%nat /\
    count is_completed evs = 0%nat.
Proof.
  intros _ Hn Hrun Hc Hret.
  apply exec_returns_inv in Hret as [[l Hw] ->].
  rewrite resolve_cancelled by auto.
  destruct (in_flight_quiet _ _ _ Hn Hrun) as (evs & He & Hq).
  { rewrite Hw. reflexivity. }
  repeat split; try reflexivity.
  exists (evs ++ [onCancelled]). simpl. rewrite He, app_assoc.
  destruct (one_terminal evs onCancelled Hq) as (H1 & H2 & H3). auto.
Qed.

Lemma cancel_observed_at_exit_witness :
  state_ (after (serve_2048 ++ [Cancel; PerformReturns NETWORK_ERROR 0 "timed out"])
                started) = CANCELLED.
Proof.
  refine (proj1 (cancel_observed_at_exit
           (serve_2048 ++ [Cancel]) started
           (after (serve_2048 ++ [Cancel]) started)
           (after (serve_2048 ++ [Cancel; PerformReturns NETWORK_ERROR 0 "timed out"])
                  started)
           NETWORK_ERROR 0 "timed out" _ _ _ _ _)); vm_compute; reflexivity.
Defined.

Ltac by_eval :=
  vm_compute; first [reflexivity | discriminate | lia | intuition congruence].

(** C1 (as stated, refuted).  A handle serves 4096 bytes and makes its last
    callback; [pause] is called; [perform] then returns OK with status 200.
    The worker finds the state PAUSED and resolves the attempt as
    cancelled: no completed event. *)
Lemma pause_after_drain_counterexample :
  exists d1 d2,
    run serve_4096 started = Some d1 /\
    cancelRequested_ d1 = false /\
    run [Pause; PerformReturns OK 200 ""] d1 = Some d2 /\
    state_ d2 = CANCELLED /\
    state_ d2 <> COMPLETED /\
    count is_completed (calls d2) = 0%nat /\
    count is_cancelled (calls d2) = 1%nat.
Proof.
  eexists. eexists.
  split; [vm_compute; reflexivity|].
  split; [reflexivity|].
  split; [vm_compute; reflexivity|].
  repeat split; try reflexivity. discriminate.
Qed.

(** C1 (amended).  When [pause] is called on a downloading attempt after
    the handle's last callback and before [perform] returns, the worker
    resolves the attempt as cancelled whatever the handle reports: the
    state becomes CANCELLED, the only event raised after the pause is one
    cancelled event, and the attempt has no completed and no error event.
    A [pause] called once the outcome is resolved changes nothing. *)
Theorem pause_after_drain
    sched d0 d1 result httpCode lastError :
  workerThread_ d0 = Spawned ->
  no_restart sched = true ->
  run sched d0 = Some d1 ->
  (exists l, workerThread_ d1 = InPerform l) ->
  state_ d1 = DOWNLOADING ->
  exists d2,
    run [Pause; PerformReturns result httpCode lastError] d1 = Some d2 /\
    state_ d2 = CANCELLED /\
    calls d2 = calls d1 ++ [onCancelled] /\
    pause d2 = d2 /\
    exists evs,
      calls d2 = calls d0 ++ evs /\
      count is_cancelled evs = 1%nat /\
      count is_completed evs = 0%nat /\
      count is_error evs = 0%nat.
Proof.
  intros _ Hn Hrun [l Hw] Hs.
  destruct (in_flight_quiet _ _ _ Hn Hrun) as (evs & He & Hq).
  { rewrite Hw. reflexivity. }
  eexists. split.
  - simpl. unfold pause. rewrite Hs. simpl. rewrite Hw.
    rewrite resolve_cancelled by (right; reflexivity). reflexivity.
  - repeat split; try reflexivity.
    exists (evs ++ [onCancelled]). simpl. rewrite He, app_assoc.
    destruct (one_terminal evs onCancelled Hq) as (H1 & H2 & H3). auto.
Qed.

Lemma pause_after_drain_witness :
  exists d2,
    run [Pause; PerformReturns OK 200 ""] (after serve_2048 started)
      = Some d2 /\
    state_ d2 = CANCELLED.
Proof.
  destruct (pause_after_drain serve_2048 started (after serve_2048 started)
              OK 200 ""
              ltac:(by_eval) ltac:(by_eval) ltac:(by_eval)
              ltac:(eexists; vm_compute; reflexivity) ltac:(by_eval))
    as (d2 & H1 & H2 & _).
  exists d2. split; assumption.
Defined.

(** C4 (as stated, refuted).  [cancelRequested_] is unset at exit, the
    handle reports OK and status 200, yet the attempt ends CANCELLED with
    no 100% progress event and no completed event, because [pause] was
    called after the last callback. *)
Lemma success_not_completed_counterexample :
  exists d1 d2,
    run (serve_2048 ++ [Pause]) started = Some d1 /\
    cancelRequested_ d1 = false /\
    exec (PerformReturns OK 200 "") d1 = Some d2 /\
    state_ d2 = CANCELLED /\
    count is_completed (calls d2) = 0%nat /\
    count is_cancelled (calls d2) = 1%nat /\
    count (fun e => match e with
                    | onProgress _ _ PercentFull => true
                    | _ => false
                    end) (calls d2) = 0%nat.
Proof.
  eexists. eexists.
  split; [vm_compute; reflexivity|].
  split; [reflexivity|].
  split; [vm_compute; reflexivity|].
  repeat split; reflexivity.
Qed.

(** C4 (amended).  When, at exit, [cancelRequested_] is unset, the state
    is not PAUSED, the handle's result is OK and the status code is below
    400, the worker raises a progress event at 100%, sets the state to
    COMPLETED and raises the completed event; these are the last two
    events of the attempt, which has exactly one completed event and no
    error or cancelled event. *)
Theorem success_completes
    sched d0 d1 d2 httpCode lastError :
  workerThread_ d0 = Spawned ->
  no_restart sched = true ->
  run sched d0 = Some d1 ->
  cancelRequested_ d1 = false ->
  state_ d1 <> PAUSED ->
  httpCode < 400 ->
  exec (PerformReturns OK httpCode lastError) d1 = Some d2 ->
  state_ d2 = COMPLETED /\
  exists evs,
    calls d2 =
      calls d0 ++ evs ++
      [onProgress (downloadedBytes_ d1)
         (if 0 <? totalBytes_ d1 then totalBytes_ d1 else downloadedBytes_ d1)
         PercentFull;
       onCompleted] /\
    quiet evs = true /\
    count is_completed (calls d2) = S (count is_completed (calls d0)) /\
    count is_error (calls d2) = count is_error (calls d0) /\
    count is_cancelled (calls d2) = count is_cancelled (calls d0).
Proof.
  intros _ Hn Hrun Hc Hs Hh Hret.
  apply exec_returns_inv in Hret as [[l Hw] ->].
  rewrite resolve_completed by assumption.
  destruct (in_flight_quiet _ _ _ Hn Hrun) as (evs & He & Hq).
  { rewrite Hw. reflexivity. }
  split; [reflexivity|].
  exists evs. simpl. rewrite He.
  destruct (quiet_counts _ Hq) as (H1 & H2 & H3).
  rewrite <- !app_assoc. simpl.
  split; [reflexivity|]. split; [assumption|].
  rewrite !count_app, H1, H2, H3. unfold count. simpl.
  repeat split; lia.
Qed.

Lemma success_completes_witness :
  state_ (after (serve_4096 ++ [PerformReturns OK 200 ""]) started) = COMPLETED.
Proof.
  refine (proj1 (success_completes serve_4096 started
                   (after serve_4096 started)
                   (after (serve_4096 ++ [PerformReturns OK 200 ""]) started)
                   200 "" _ _ _ _ _ _ _)); by_eval.
Defined.

(** C7 (as stated, refuted).  [cancelRequested_] is unset at exit, the
    handle reports OK with status 404 and an empty body, yet the attempt
    ends CANCELLED with no error event, because [pause] was called after
    the last callback. *)
Lemma http_error_not_failed_counterexample :
  exists d1 d2,
    run (serve_empty ++ [Pause]) started = Some d1 /\
    cancelRequested_ d1 = false /\
    exec (PerformReturns OK 404 "") d1 = Some d2 /\
    state_ d2 = CANCELLED /\
    count is_error (calls d2) = 0%nat /\
    count is_cancelled (calls d2) = 1%nat.
Proof.
  eexists. eexists.
  split; [vm_compute; reflexivity|].
  split; [reflexivity|].
  split; [vm_compute; reflexivity|].
  repeat split; reflexivity.
Qed.

(** C7 (amended).  When, at exit, [cancelRequested_] is unset, the state
    is not PAUSED, the handle's result is OK and the status code is 400 or
    more, the state becomes ERROR and the attempt ends with one error
    event whose message is "HTTP error: " followed by the status code in
    decimal; the attempt has no completed and no cancelled event. *)
Theorem http_error_fails
    sched d0 d1 d2 httpCode lastError :
  workerThread_ d0 = Spawned ->
  no_restart sched = true ->
  run sched d0 = Some d1 ->
  cancelRequested_ d1 = false ->
  state_ d1 <> PAUSED ->
  400 <= httpCode ->
  exec (PerformReturns OK httpCode lastError) d1 = Some d2 ->
  state_ d2 = ERROR /\
  exists evs,
    calls d2 =
      calls d0 ++ evs ++
      [onError ("HTTP error: " ++ to_string httpCode)%string] /\
    quiet evs = true /\
    count is_error (calls d2) = S (count is_error (calls d0)) /\
    count is_completed (calls d2) = count is_completed (calls d0) /\
    count is_cancelled (calls d2) = count is_cancelled (calls d0).
Proof.
  intros _ Hn Hrun Hc Hs Hh Hret.
  apply exec_returns_inv in Hret as [[l Hw] ->].
  rewrite resolve_http_error by assumption.
  destruct (in_flight_quiet _ _ _ Hn Hrun) as (evs & He & Hq).
  { rewrite Hw. reflexivity. }
  split; [reflexivity|].
  exists evs. simpl. rewrite He.
  destruct (quiet_counts _ Hq) as (H1 & H2 & H3).
  rewrite <- !app_assoc.
  split; [reflexivity|]. split; [assumption|].
  rewrite !count_app, H1, H2, H3. unfold count. simpl.
  repeat split; lia.
Qed.

Lemma http_error_fails_witness :
  calls (after (serve_empty ++ [PerformReturns OK 404 ""]) started) =
  [onProgress 0 0 PercentUnknown; onError "HTTP error: 404"].
Proof.
  destruct (http_error_fails serve_empty started
              (after serve_empty started)
              (after (serve_empty ++ [PerformReturns OK 404 ""]) started)
              404 ""
              ltac:(by_eval) ltac:(by_eval) ltac:(by_eval) ltac:(by_eval)
              ltac:(by_eval) ltac:(by_eval) ltac:(by_eval))
    as (_ & _).
  vm_compute. reflexivity.
Defined.

(* ===================================================================== *)
(** ** Starting a download                                                 *)
(* ===================================================================== *)

(** C3.  In every reachable engine state, [startDownload] returns false
    and leaves the engine as it is when the state is DOWNLOADING or PAUSED;
    from any other state it returns true with both counters 0, both flags
    false, the new URL and output path stored, the state DOWNLOADING and a
    worker launched (observers and logs untouched). *)
Theorem startDownload_spec url outputPath d :
  reachable d ->
  (active (state_ d) = true ->
   startDownload url outputPath d = Some (false, d)) /\
  (active (state_ d) = false ->
   exists d',
     startDownload url outputPath d = Some (true, d') /\
     downloadedBytes_ d' = 0 /\ totalBytes_ d' = 0 /\
     pauseRequested_ d' = false /\ cancelRequested_ d' = false /\
     url_ d' = url /\ outputPath_ d' = outputPath /\
     state_ d' = DOWNLOADING /\ workerThread_ d' = Spawned /\
     observers_ d' = observers_ d /\
     calls d' = calls d /\ delivered d' = delivered d).
Proof.
  intros Hr. apply reachable_invariant in Hr. destruct Hr as [_ _ _ Hw].
  unfold startDownload. split; intros Ha.
  - destruct (state_ d); try discriminate Ha; reflexivity.
  - rewrite Ha in Hw.
    destruct (state_ d); try discriminate Ha;
      destruct (workerThread_ d); try discriminate Hw;
      eexists; (split; [reflexivity|]); simpl; repeat split; reflexivity.
Qed.

Lemma startDownload_spec_witness :
  startDownload "u" "p" started = Some (false, started) /\
  exists d', startDownload "u" "p" init = Some (true, d') /\
             state_ d' = DOWNLOADING.
Proof.
  split.
  - refine (proj1 (startDownload_spec "u" "p" started _) _).
    + exists [AddObserver 1%N; StartDownload file_url file_path].
      vm_compute. reflexivity.
    + reflexivity.
  - destruct (proj2 (startDownload_spec "u" "p" init
                       (ex_intro _ [] eq_refl)) eq_refl)
      as (d' & H & _ & _ & _ & _ & _ & _ & Hs & _).
    exists d'. split; assumption.
Defined.

(* ===================================================================== *)
(** ** The observer list                                                   *)
(* ===================================================================== *)

Lemma set_observers_same d : set_observers (observers_ d) d = d.
Proof. destruct d. reflexivity. Qed.

Lemma filter_all {A} (p : A -> bool) l :
  (forall x, In x l -> p x = true) -> filter p l = l.
Proof.
  induction l as [|x l IH]; simpl; intros H; [reflexivity|].
  rewrite (H x) by auto. f_equal. apply IH. auto.
Qed.

Lemma filter_none {A} (p : A -> bool) l :
  (forall x, In x l -> p x = false) -> filter p l = [].
Proof.
  induction l as [|x l IH]; simpl; intros H; [reflexivity|].
  rewrite (H x) by auto. apply IH. auto.
Qed.

Lemma addObserver_idempotent o d :
  addObserver o (addObserver o d) = addObserver o d.
Proof.
  unfold addObserver. destruct (N.eqb o nullptr) eqn:E.
  - reflexivity.
  - destruct (registered o (observers_ d)) eqn:R.
    + rewrite R. reflexivity.
    + simpl.
      replace (registered o (observers_ d ++ [o])) with true; [reflexivity|].
      symmetry. apply registered_In. rewrite in_app_iff. right. left.
      reflexivity.
Qed.

Lemma removeObserver_absent o d :
  ~ In o (observers_ d) -> removeObserver o d = d.
Proof.
  intros H. unfold removeObserver. rewrite filter_all.
  - apply set_observers_same.
  - intros x Hx. apply negb_true_iff, N.eqb_neq.
    intros E. subst x. contradiction.
Qed.

Lemma addObserver_registers o d :
  o <> nullptr -> In o (observers_ (addObserver o d)).
Proof.
  intros Ho. rewrite addObserver_observers.
  apply N.eqb_neq in Ho. rewrite Ho.
  destruct (registered o (observers_ d)) eqn:R.
  - apply registered_In. assumption.
  - rewrite in_app_iff. right. left. reflexivity.
Qed.

Lemma iter_addObserver_idempotent o n d :
  Nat.iter (S n) (addObserver o) d = addObserver o d.
Proof.
  induction n as [|n IH]; [reflexivity|].
  change (Nat.iter (S (S n)) (addObserver o) d)
    with (addObserver o (Nat.iter (S n) (addObserver o) d)).
  rewrite IH. apply addObserver_idempotent.
Qed.

(** What one notification hands to a registered observer of a
    duplicate-free list: the event, once. *)
Lemma fanout_one o obs e :
  NoDup obs -> In o obs ->
  map snd (filter (fun x : observer * event => N.eqb (fst x) o)
             (map (fun o' => (o', e)) obs)) = [e].
Proof.
  induction 1 as [|x obs Hx Hnd IH]; intros Hin; [destruct Hin|].
  simpl. destruct (N.eqb x o) eqn:E.
  - apply N.eqb_eq in E. subst x. simpl. f_equal.
    rewrite filter_none; [reflexivity|].
    intros y Hy. apply in_map_iff in Hy as (o' & <- & Ho'). simpl.
    apply N.eqb_neq. congruence.
  - destruct Hin as [-> | Hin]; [rewrite N.eqb_refl in E; discriminate|].
    auto.
Qed.

Lemma fanout_received o obs evs :
  NoDup obs -> In o obs ->
  map snd (filter (fun x : observer * event => N.eqb (fst x) o)
             (fanout obs evs)) = evs.
Proof.
  intros Hnd Hin. unfold fanout.
  induction evs as [|e evs IH]; [reflexivity|].
  simpl. rewrite filter_app, map_app, IH, fanout_one by assumption.
  reflexivity.
Qed.

Lemma exec_keeps_registered o a d d' :
  exec a d = Some d' ->
  match a with RemoveObserver o' => negb (N.eqb o' o) | _ => true end = true ->
  In o (observers_ d) -> In o (observers_ d').
Proof.
  intros H Hk Hin. destruct a;
    try (rewrite (exec_observers _ _ _ H eq_refl); assumption).
  - simpl in H. injection H as <-. rewrite addObserver_observers.
    destruct (N.eqb o0 nullptr); [assumption|].
    destruct (registered o0 (observers_ d)); [assumption|].
    rewrite in_app_iff. auto.
  - simpl in H. injection H as <-. simpl. rewrite filter_In.
    split; [assumption|]. apply negb_true_iff in Hk. apply N.eqb_neq in Hk.
    apply negb_true_iff, N.eqb_neq. congruence.
Qed.

(** A registered observer that is not removed receives every event raised,
    once each and in the order raised. *)
Lemma run_received o sched d d' :
  invariant d -> In o (observers_ d) -> keeps o sched = true ->
  run sched d = Some d' ->
  exists evs,
    calls d' = calls d ++ evs /\ received o d' = received o d ++ evs.
Proof.
  revert d. induction sched as [|a sched IH]; intros d Hi Hin Hk H;
    simpl in *.
  - injection H as <-. exists []. rewrite !app_nil_r. auto.
  - apply andb_prop in Hk as [Ha Hk].
    destruct (exec a d) as [d1|] eqn:E; [|discriminate].
    destruct (exec_logs _ _ _ E) as (evs1 & Hc1 & Hd1 & _).
    destruct (IH d1) as (evs2 & Hc2 & Hr2); auto.
    { eapply exec_invariant; eassumption. }
    { eapply exec_keeps_registered; eassumption. }
    exists (evs1 ++ evs2). split.
    + rewrite Hc2, Hc1, app_assoc. reflexivity.
    + rewrite Hr2. unfold received at 1 2. rewrite Hd1.
      rewrite filter_app, map_app, fanout_received, app_assoc;
        auto using inv_distinct.
Qed.

(** C9.  [addObserver] is idempotent and [removeObserver] of an observer
    that is not registered changes nothing.  An observer registered any
    number of times (at least once) in a reachable state and not removed
    afterwards receives every event raised from then on exactly once, in
    order. *)
Theorem observer_registered_once :
  (forall o d, addObserver o (addObserver o d) = addObserver o d) /\
  (forall o d, ~ In o (observers_ d) -> removeObserver o d = d) /\
  (forall o n d sched d',
      reachable d -> o <> nullptr -> keeps o sched = true ->
      run sched (Nat.iter (S n) (addObserver o) d) = Some d' ->
      Nat.iter (S n) (addObserver o) d = addObserver o d /\
      exists evs,
        calls d' = calls d ++ evs /\
        received o d' = received o d ++ evs).
Proof.
  split; [exact addObserver_idempotent|].
  split; [exact removeObserver_absent|].
  intros o n d sched d' Hr Ho Hk Hrun.
  split; [apply iter_addObserver_idempotent|].
  rewrite iter_addObserver_idempotent in Hrun.
  assert (Hi : invariant (addObserver o d)).
  { apply (exec_invariant (AddObserver o) d); [reflexivity|].
    apply reachable_invariant. assumption. }
  destruct (run_received o sched (addObserver o d) d' Hi) as (evs & Hc & Hv);
    auto using addObserver_registers.
  exists evs. split.
  - rewrite Hc. f_equal. unfold addObserver.
    destruct (N.eqb o nullptr); [reflexivity|].
    destruct (registered o (observers_ d)); reflexivity.
  - rewrite Hv. f_equal. unfold addObserver.
    destruct (N.eqb o nullptr); [reflexivity|].
    destruct (registered o (observers_ d)); reflexivity.
Qed.

Lemma observer_registered_once_witness :
  count is_completed
    (received 7%N (after thrice_then_download init)) = 1%nat.
Proof.
  destruct (proj2 (proj2 observer_registered_once) 7%N 2%nat init
              (StartDownload file_url file_path
               :: serve_2048 ++ [PerformReturns OK 200 ""])
              (after thrice_then_download init)
              (ex_intro _ [] eq_refl)
              ltac:(discriminate) ltac:(by_eval) ltac:(by_eval))
    as (_ & evs & _ & _).
  vm_compute. reflexivity.
Defined.

(** C10.  [addObserver(nullptr)] changes nothing; in every reachable state
    the observer list holds no null pointer and no observer method has
    been invoked through a null pointer. *)
Theorem null_observer_never_registered :
  (forall d, addObserver nullptr d = d) /\
  (forall d, reachable d ->
             ~ In nullptr (observers_ d) /\
             forall e, ~ In (nullptr, e) (delivered d)).
Proof.
  split; [reflexivity|].
  intros d Hr. apply reachable_invariant in Hr. destruct Hr as [_ Hn Hd _].
  split; [assumption|].
  intros e He. apply (Hd _ He). reflexivity.
Qed.

Lemma null_observer_never_registered_witness :
  ~ In nullptr
      (observers_ (after [AddObserver nullptr; AddObserver 3%N;
                          AddObserver nullptr] init)).
Proof.
  refine (proj1 (proj2 null_observer_never_registered _ _)).
  exists [AddObserver nullptr; AddObserver 3%N; AddObserver nullptr].
  vm_compute. reflexivity.
Defined.

(* ===================================================================== *)
(** ** The byte counters                                                   *)
(* ===================================================================== *)

Lemma offered_nonneg sched : 0 <= offered sched.
Proof.
  induction sched as [|a sched IH]; simpl; [lia|]. destruct a; lia.
Qed.

Lemma offered_app s1 s2 : offered (s1 ++ s2) = offered s1 + offered s2.
Proof.
  induction s1 as [|a s1 IH]; simpl; [reflexivity|]. destruct a; lia.
Qed.

Lemma max_signed_value : Int64.max_signed = 9223372036854775807.
Proof. reflexivity. Qed.

Lemma min_signed_value : Int64.min_signed = -9223372036854775808.
Proof. reflexivity. Qed.

(** [fetch_add] of a chunk size is exact when the sum fits. *)
Lemma fetch_add_exact a n :
  0 <= a -> a + Z.of_N n <= Int64.max_signed ->
  Int64.add a (Int64.of_size_t n) = a + Z.of_N n.
Proof.
  intros Ha Hs. rewrite Int64Facts.of_size_t_exact by lia.
  apply Int64Facts.add_exact. unfold Int64.in_range.
  rewrite min_signed_value. lia.
Qed.

(** The progress events a move raises carry the counter as it stands
    when the move begins. *)
Lemma exec_progress a d d' :
  exec a d = Some d' ->
  exists evs,
    calls d' = calls d ++ evs /\
    Forall (eq (downloadedBytes_ d)) (progress_downloaded evs).
Proof.
  intros H. destruct a; unfold_engine; split_cases; simpl;
    rewrite <- ?app_assoc;
    (eexists; split; [try reflexivity; symmetry; apply app_nil_r |]);
    simpl; repeat constructor.
Qed.

Ltac split_flags :=
  repeat match goal with
         | |- context [match ?x with _ => _ end] =>
           lazymatch x with
           | context [locals_of] => fail
           | _ => destruct x eqn:?
           end
         | |- context [if ?x then _ else _] =>
           lazymatch x with
           | context [locals_of] => fail
           | _ => destruct x eqn:?
           end
         end.

Lemma exec_counted R a rest d d' :
  0 <= R -> is_start a = false ->
  counted R (a :: rest) d -> exec a d = Some d' ->
  counted R rest d' /\ downloadedBytes_ d <= downloadedBytes_ d'.
Proof.
  intros HR Hs Hc H. pose proof (offered_nonneg rest) as Hrest.
  unfold counted in *.
  destruct (workerThread_ d) as [| |l|l sz io|] eqn:W; simpl in Hc;
    repeat match goal with
           | C : _ /\ _ |- _ => destruct C
           end;
    try congruence;
    destruct a; try discriminate Hs; simpl in H; rewrite ?W in H;
    try discriminate H; injection H as <-;
    unfold_engine; unfold ofstream_write, wait_over;
    split_flags; simpl; rewrite ?W; simpl;
    rewrite ?fetch_add_exact by lia;
    simpl in *; repeat split; try lia; try congruence.
Qed.

Lemma progress_downloaded_app l1 l2 :
  progress_downloaded (l1 ++ l2) =
  progress_downloaded l1 ++ progress_downloaded l2.
Proof. apply flat_map_app. Qed.

(** Along a schedule without restart the counter never decreases, and
    every progress event carries a value at least the counter's value at
    the start of the schedule. *)
Lemma run_counted R sched d d' :
  0 <= R -> no_restart sched = true ->
  counted R sched d -> run sched d = Some d' ->
  counted R [] d' /\
  downloadedBytes_ d <= downloadedBytes_ d' /\
  exists evs,
    calls d' = calls d ++ evs /\
    Forall (fun dl => downloadedBytes_ d <= dl) (progress_downloaded evs).
Proof.
  intros HR. revert d.
  induction sched as [|a sched IH]; intros d Hn Hc H; simpl in H.
  - injection H as <-. split; [assumption|]. split; [lia|].
    exists []. rewrite app_nil_r. split; [reflexivity | constructor].
  - simpl in Hn. apply andb_prop in Hn as [Ha Hn]. apply negb_true_iff in Ha.
    destruct (exec a d) as [d1|] eqn:E; [|discriminate].
    destruct (exec_counted R a sched d d1 HR Ha Hc E) as [Hc1 Hm1].
    destruct (exec_progress _ _ _ E) as (evs1 & He1 & Hp1).
    destruct (IH d1 Hn Hc1 H) as (Hc' & Hm' & evs2 & He2 & Hp2).
    split; [assumption|]. split; [lia|].
    exists (evs1 ++ evs2). split.
    + rewrite He2, He1, app_assoc. reflexivity.
    + rewrite progress_downloaded_app. apply Forall_app. split.
      * eapply Forall_impl; [|exact Hp1]. simpl. intros z <-. lia.
      * eapply Forall_impl; [|exact Hp2]. simpl. intros z Hz. lia.
Qed.

Lemma begin_downloadedBytes existing open_ok made d :
  downloadedBytes_ (doDownload_begin existing open_ok made d) =
  resume_offset existing.
Proof.
  unfold doDownload_begin. destruct open_ok; simpl; [|reflexivity].
  destruct made; reflexivity.
Qed.

Lemma begin_calls_progress existing open_ok made d :
  exists evs,
    calls (doDownload_begin existing open_ok made d) = calls d ++ evs /\
    progress_downloaded evs = [].
Proof.
  unfold doDownload_begin. destruct open_ok; simpl.
  - destruct made; simpl;
      try (eexists; split; [reflexivity | reflexivity]).
    exists []. rewrite app_nil_r. auto.
  - eexists; split; reflexivity.
Qed.

Lemma begin_counted existing open_ok made sched d :
  resume_offset existing + offered sched <= Int64.max_signed ->
  counted (resume_offset existing) sched
    (doDownload_begin existing open_ok made d).
Proof.
  intros Hb. unfold counted, doDownload_begin.
  destruct open_ok; simpl.
  - destruct made; simpl; repeat split; try discriminate;
      fold (resume_offset existing); lia.
  - split; [discriminate | fold (resume_offset existing); lia].
Qed.

(** C5.  At the start of an attempt the worker stores the size found for
    the destination file (0 when there is none) in [downloadedBytes_];
    when the output opens and a handle is made, that value is the
    attempt's resume position and, if positive, is what [setResumeFrom]
    receives (otherwise [setResumeFrom] is not called).  From then on,
    for byte counts that fit in 64 bits, the counter and the downloaded
    value of every progress event of the attempt are at least that
    size. *)
Theorem resume_offset_seeds_counter
    existing open_ok made sched d0 d1 :
  workerThread_ d0 = Spawned ->
  no_restart sched = true ->
  0 <= resume_offset existing ->
  resume_offset existing + offered sched <= Int64.max_signed ->
  run (WorkerBegin existing open_ok made :: sched) d0 = Some d1 ->
  downloadedBytes_ (doDownload_begin existing open_ok made d0)
    = resume_offset existing /\
  (open_ok = true -> made = FactoryHandle ->
   exists l,
     workerThread_ (doDownload_begin existing open_ok made d0) = InPerform l /\
     resumeFrom l = resume_offset existing /\
     curl_resumeFrom (curl l) =
       (if 0 <? resume_offset existing
        then Some (resume_offset existing) else None)) /\
  resume_offset existing <= downloadedBytes_ d1 /\
  exists evs,
    calls d1 = calls d0 ++ evs /\
    Forall (fun dl => resume_offset existing <= dl) (progress_downloaded evs).
Proof.
  intros W Hn HR Hb Hrun. simpl in Hrun. rewrite W in Hrun.
  split; [apply begin_downloadedBytes|].
  split.
  { intros -> ->. eexists. split; [reflexivity|]. split; reflexivity. }
  destruct (run_counted _ _ _ _ HR Hn
              (begin_counted existing open_ok made sched d0 Hb) Hrun)
    as (_ & Hm & evs & He & Hp).
  rewrite begin_downloadedBytes in Hm, Hp.
  split; [assumption|].
  destruct (begin_calls_progress existing open_ok made d0) as (evs0 & He0 & Hp0).
  exists (evs0 ++ evs). split.
  - rewrite He, He0, app_assoc. reflexivity.
  - rewrite progress_downloaded_app, Hp0. assumption.
Qed.

Lemma resume_offset_seeds_counter_witness :
  progress_downloaded (calls (after resume_1024 started)) = [1024; 2048; 2048]
  /\ Forall (fun dl => 1024 <= dl)
       (progress_downloaded (calls (after resume_1024 started))).
Proof.
  destruct (resume_offset_seeds_counter (Some 1024) true FactoryHandle
              (tl resume_1024) started (after resume_1024 started)
              ltac:(by_eval) ltac:(by_eval) ltac:(by_eval) ltac:(by_eval)
              ltac:(by_eval))
    as (_ & _ & _ & evs & He & Hp).
  split; [vm_compute; reflexivity|].
  assert (E : calls (after resume_1024 started) = evs) by exact He.
  rewrite E. exact Hp.
Defined.

(** C6 (as stated, refuted).  A fresh download, nothing on disk, so the
    resume position is 0.  Before any byte has been written the handle
    reports 50 of 100 bytes as delivered.  The cancel flag is unset and
    the reported total is positive; the callback stores 50 as the total
    and raises progress with it, not the resume position plus the
    reported total. *)
Lemma progress_total_counterexample :
  exists d1 l d2,
    run [WorkerBegin None true FactoryHandle] started = Some d1 /\
    workerThread_ d1 = InPerform l /\
    resumeFrom l = 0 /\
    cancelRequested_ d1 = false /\
    exec (ProgressCb 100 50) d1 = Some d2 /\
    totalBytes_ d2 = 50 /\
    totalBytes_ d2 <> resumeFrom l + 100 /\
    calls d2 = calls d1 ++ [onProgress 0 50 (PercentRatio 0 50)].
Proof.
  eexists. eexists. eexists.
  split; [vm_compute; reflexivity|].
  split; [reflexivity|].
  split; [reflexivity|].
  split; [reflexivity|].
  split; [vm_compute; reflexivity|].
  split; [reflexivity|].
  split; [simpl; discriminate|].
  reflexivity.
Qed.

(** C6 (amended).  A progress callback invoked with [cancelRequested_]
    unset and a positive reported total returns 0, stores as [totalBytes_]
    the reported total plus the counter minus the reported delivered
    count, leaves the counter as it is, and raises one progress event (one
    call per registered observer) carrying the counter, the new total and
    their percentage.  The stored total is the attempt's resume position
    plus the reported total when the handle reports as delivered what the
    write callback took in this attempt and the sizes fit in 64 bits. *)
Theorem progress_recomputes_total :
  (forall d dltotal dlnow,
      cancelRequested_ d = false -> 0 < dltotal ->
      let total := Int64.add dltotal (Int64.sub (downloadedBytes_ d) dlnow) in
      let e := onProgress (downloadedBytes_ d) total
                 (percent_of (downloadedBytes_ d) total) in
      let d' := snd (progressCallback dltotal dlnow d) in
      fst (progressCallback dltotal dlnow d) = 0 /\
      totalBytes_ d' = total /\
      downloadedBytes_ d' = downloadedBytes_ d /\
      calls d' = calls d ++ [e] /\
      delivered d' = delivered d ++ map (fun o => (o, e)) (observers_ d)) /\
  (forall existing sched d0 d1 l dltotal,
      workerThread_ d0 = Spawned ->
      no_restart sched = true ->
      0 <= resume_offset existing ->
      resume_offset existing + offered sched <= Int64.max_signed ->
      run (WorkerBegin existing true FactoryHandle :: sched) d0 = Some d1 ->
      workerThread_ d1 = InPerform l ->
      cancelRequested_ d1 = false ->
      0 < dltotal ->
      resume_offset existing + dltotal <= Int64.max_signed ->
      resumeFrom l = resume_offset existing /\
      totalBytes_ (snd (progressCallback dltotal (of_written (outFile l)) d1))
        = resume_offset existing + dltotal).
Proof.
  split.
  - intros d dltotal dlnow Hc Ht. unfold progressCallback. rewrite Hc.
    apply Z.ltb_lt in Ht. rewrite Ht. simpl. repeat split; reflexivity.
  - intros existing sched d0 d1 l dltotal W Hn HR Hb Hrun Hw Hc Ht Hfit.
    simpl in Hrun. rewrite W in Hrun.
    destruct (run_counted _ _ _ _ HR Hn
                (begin_counted existing true FactoryHandle sched d0 Hb) Hrun)
      as (Hcnt & _).
    unfold counted in Hcnt. rewrite Hw in Hcnt. simpl in Hcnt.
    destruct Hcnt as (Hl & Hd & Hwr & _).
    split; [assumption|].
    unfold progressCallback. rewrite Hc.
    pose proof Ht as Ht'. apply Z.ltb_lt in Ht'. rewrite Ht'. simpl.
    rewrite Hd.
    rewrite Int64Facts.sub_exact, Int64Facts.add_exact;
      unfold Int64.in_range; rewrite ?min_signed_value; lia.
Qed.

Lemma progress_recomputes_total_witness :
  totalBytes_
    (snd (progressCallback 1024 1024
            (after [WorkerBegin (Some 1024) true FactoryHandle;
                    ProgressCb 1024 0; WriteCb 1024 true] started)))
  = 1024 + 1024.
Proof.
  refine (proj2 (proj2 progress_recomputes_total (Some 1024)
            [ProgressCb 1024 0; WriteCb 1024 true] started
            (after [WorkerBegin (Some 1024) true FactoryHandle;
                    ProgressCb 1024 0; WriteCb 1024 true] started)
            {| resumeFrom := 1024;
               outFile := {| of_mode := app; of_failbit := false;
                             of_written := 1024 |};
               curl := {| curl_url := file_url;
                          curl_resumeFrom := Some 1024 |} |}
            1024 _ _ _ _ _ _ _ _ _)); by_eval.
Defined.




Lemma run_counted_app R sched rest d d' :
  0 <= R -> no_restart sched = true ->
  counted R (sched ++ rest) d -> run sched d = Some d' ->
  counted R rest d' /\ downloadedBytes_ d <= downloadedBytes_ d'.
Proof.
  intros HR. revert d.
  induction sched as [|a sched IH]; intros d Hn Hc H; simpl in H.
  - injection H as <-. split; [assumption | lia].
  - simpl in Hn. apply andb_prop in Hn as [Ha Hn]. apply negb_true_iff in Ha.
    destruct (exec a d) as [d1|] eqn:E; [|discriminate].
    destruct (exec_counted R a (sched ++ rest) d d1 HR Ha Hc E) as [Hc1 Hm1].
    destruct (IH d1 Hn Hc1 H) as (Hc' & Hm').
    split; [assumption | lia].
Qed.





Lemma startDownload_true_inv url outputPath d d0 :
  startDownload url outputPath d = Some (true, d0) ->
  workerThread_ d0 = Spawned /\ totalBytes_ d0 = 0 /\
  downloadedBytes_ d0 = 0 /\ cancelRequested_ d0 = false /\
  pauseRequested_ d0 = false /\ state_ d0 = DOWNLOADING.
Proof.
  unfold startDownload. intros H.
  destruct (state_ d); destruct (workerThread_ d); try discriminate H;
    injection H as <-; simpl; repeat split; reflexivity.
Qed.




(* ===================================================================== *)
(** ** Pause, resume and cancel                                            *)
(* ===================================================================== *)



Lemma set_flags_same d :
  set_pauseRequested (pauseRequested_ d) (set_state (state_ d) d) = d.
Proof. destruct d. reflexivity. Qed.



Lemma startDownload_inactive url outputPath d :
  invariant d -> active (state_ d) = false ->
  startDownload url outputPath d =
  Some (true,
        mk_Downloader (observers_ d) url outputPath 0 0 DOWNLOADING
          false false Spawned (calls d) (delivered d)).
Proof.
  intros [_ _ _ Hw] Ha. rewrite Ha in Hw. unfold startDownload.
  destruct (state_ d); try discriminate Ha;
    destruct (workerThread_ d); try discriminate Hw; reflexivity.
Qed.

(** X2.  While no download is active (state neither DOWNLOADING nor
    PAUSED) [pause] and [resume] change nothing, and [cancel] leaves the
    state as it is.  The cancel flag it sets does not carry over: in a
    reachable engine a following [startDownload] succeeds and starts with
    both flags cleared. *)
Theorem controls_when_inactive url outputPath d :
  reachable d -> active (state_ d) = false ->
  pause d = d /\ resume d = d /\
  state_ (cancel d) = state_ d /\ cancelRequested_ (cancel d) = true /\
  exists d',
    startDownload url outputPath (cancel d) = Some (true, d') /\
    cancelRequested_ d' = false /\ pauseRequested_ d' = false /\
    state_ d' = DOWNLOADING.
Proof.
  intros Hr Ha.
  assert (Hi : invariant (cancel d)).
  { apply reachable_invariant.
    eapply reachable_run with (sched := [Cancel]); [exact Hr | reflexivity]. }
  unfold pause, resume.
  repeat split; try reflexivity;
    try (destruct (state_ d); try discriminate Ha; reflexivity).
  eexists. split; [apply startDownload_inactive; assumption|].
  repeat split; reflexivity.
Qed.

Lemma controls_when_inactive_witness :
  pause init = init /\ resume init = init /\ state_ (cancel init) = IDLE.
Proof.
  destruct (controls_when_inactive "u" "p" init
              (ex_intro _ [] eq_refl) eq_refl)
    as (H1 & H2 & H3 & _).
  repeat split; assumption.
Defined.



(** X5.  A worker blocked in the pause wait stays blocked on a wake-up
    while the pause flag is set and the cancel flag is not.  [cancel]
    releases it: the wake-up then makes the write callback return 0
    without a resumed event and without writing, and whatever [perform]
    returns afterwards the attempt ends CANCELLED with one cancelled
    event. *)
Theorem cancel_releases_paused_worker d l size io_ok result httpCode lastError :
  workerThread_ d = InWait l size io_ok ->
  (pauseRequested_ d = true -> cancelRequested_ d = false ->
   exec Wake d = Some d) /\
  waitIfPaused_wake l size io_ok (cancel d) =
    (Some 0%N, set_workerThread (InPerform l) (cancel d)) /\
  exists d2,
    run [Cancel; Wake; PerformReturns result httpCode lastError] d = Some d2 /\
    state_ d2 = CANCELLED /\
    calls d2 = calls d ++ [onCancelled] /\
    downloadedBytes_ d2 = downloadedBytes_ d /\
    workerThread_ d2 = Exited.
Proof.
  intros Hw. split.
  { intros Hp Hc. simpl. rewrite Hw. unfold waitIfPaused_wake, wait_over.
    rewrite Hp, Hc. reflexivity. }
  split; [reflexivity|].
  eexists. split.
  { simpl. rewrite Hw. simpl. reflexivity. }
  repeat split; reflexivity.
Qed.

Lemma cancel_releases_paused_worker_witness :
  state_ (after [Cancel; Wake; PerformReturns ABORTED_BY_CALLBACK 200 ""]
                blocked) = CANCELLED.
Proof.
  destruct (cancel_releases_paused_worker blocked
              {| resumeFrom := 0;
                 outFile := {| of_mode := trunc; of_failbit := false;
                               of_written := 0 |};
                 curl := {| curl_url := file_url;
                            curl_resumeFrom := None |} |}
              1024 true ABORTED_BY_CALLBACK 200 "" ltac:(by_eval))
    as (_ & _ & d2 & H & Hs & _).
  by_eval.
Defined.

(* ===================================================================== *)
(** ** How an attempt ends                                                 *)
(* ===================================================================== *)

(** Without a restart, an engine whose worker is not running keeps its
    worker, counters and logs, and an inactive state stays as it is. *)
Lemma exec_idle a d d' :
  exec a d = Some d' -> is_start a = false ->
  running (workerThread_ d) = false ->
  workerThread_ d' = workerThread_ d /\ calls d' = calls d /\
  downloadedBytes_ d' = downloadedBytes_ d /\
  totalBytes_ d' = totalBytes_ d /\
  (active (state_ d) = false -> state_ d' = state_ d).
Proof.
  intros H Hs Hr. revert Hr.
  destruct a; try discriminate Hs; unfold_engine; split_cases; simpl;
    use_eqns; simpl; intros Hr; try discriminate Hr;
    repeat split; try reflexivity; intros Ha; try discriminate Ha;
    reflexivity.
Qed.

Lemma run_idle sched d d' :
  no_restart sched = true -> running (workerThread_ d) = false ->
  run sched d = Some d' ->
  workerThread_ d' = workerThread_ d /\ calls d' = calls d /\
  downloadedBytes_ d' = downloadedBytes_ d /\
  totalBytes_ d' = totalBytes_ d /\
  (active (state_ d) = false -> state_ d' = state_ d).
Proof.
  revert d. induction sched as [|a sched IH]; intros d Hn Hr H; simpl in *.
  - injection H as <-. repeat split; reflexivity.
  - apply andb_prop in Hn as [Ha Hn]. apply negb_true_iff in Ha.
    destruct (exec a d) as [d1|] eqn:E; [|discriminate].
    destruct (exec_idle _ _ _ E Ha Hr) as (Hw & Hc & Hd & Ht & Hs).
    destruct (IH d1 Hn) as (Hw' & Hc' & Hd' & Ht' & Hs');
      [congruence | assumption |].
    repeat split; try congruence.
    intros Hact. rewrite Hs', Hs; auto. rewrite Hs; auto.
Qed.

(** The move by which a running worker stops running: it raises its
    terminal event last and sets the state that event announces. *)
Lemma exec_exit a d d' :
  exec a d = Some d' -> is_start a = false ->
  running (workerThread_ d) = true ->
  running (workerThread_ d') = false ->
  workerThread_ d' = Exited /\
  exists evs e,
    calls d' = calls d ++ evs ++ [e] /\ quiet evs = true /\
    outcome_of e = Some (state_ d').
Proof.
  intros H Hs Hr. revert Hr.
  destruct a; try discriminate Hs; unfold_engine; split_cases; simpl;
    use_eqns; simpl; intros Hr Hx; try discriminate Hr; try discriminate Hx;
    try congruence;
    (split; [reflexivity|]);
    first [ exists [], onCancelled; repeat split; reflexivity
          | eexists [], (onError _); repeat split; reflexivity
          | eexists [_], onCompleted; rewrite <- app_assoc;
            repeat split; reflexivity ].
Qed.

(** X7.  Every attempt raises exactly one terminal event, as its last
    event, and ends in the state that event announces: once the worker of
    an attempt has exited, the events raised since the worker was launched
    are non-terminal events followed by one of completed, cancelled or
    error, and the state is COMPLETED, CANCELLED or ERROR accordingly,
    also after any further [pause], [resume], [cancel] or observer
    changes. *)
Theorem attempt_ends_with_one_terminal_event sched d0 d' :
  workerThread_ d0 = Spawned ->
  no_restart sched = true ->
  run sched d0 = Some d' ->
  workerThread_ d' = Exited ->
  exists evs e,
    calls d' = calls d0 ++ evs ++ [e] /\
    quiet evs = true /\
    outcome_of e = Some (state_ d') /\
    count terminal (evs ++ [e]) = 1%nat.
Proof.
  intros W Hn Hrun Hx.
  assert (G : forall s d,
             running (workerThread_ d) = true -> no_restart s = true ->
             run s d = Some d' ->
             exists evs e,
               calls d' = calls d ++ evs ++ [e] /\ quiet evs = true /\
               outcome_of e = Some (state_ d')).
  { induction s as [|a s IH]; intros d Hr Hs H; simpl in H.
    - injection H as ->. rewrite Hx in Hr. discriminate.
    - simpl in Hs. apply andb_prop in Hs as [Ha Hs].
      apply negb_true_iff in Ha.
      destruct (exec a d) as [d1|] eqn:E; [|discriminate].
      destruct (running (workerThread_ d1)) eqn:R1.
      + destruct (exec_logs _ _ _ E) as (evs1 & Hc1 & _ & Hq1).
        destruct (IH d1 R1 Hs H) as (evs2 & e & Hc2 & Hq2 & Ho).
        exists (evs1 ++ evs2), e. split.
        * rewrite Hc2, Hc1, <- !app_assoc. reflexivity.
        * split; [|assumption].
          unfold quiet in *. rewrite forallb_app, Hq1, Hq2; auto.
      + destruct (exec_exit _ _ _ E Ha Hr R1) as (_ & evs & e & Hc & Hq & Ho).
        destruct (run_idle _ _ _ Hs R1 H) as (_ & Hc' & _ & _ & Hst).
        exists evs, e. split; [congruence|]. split; [assumption|].
        rewrite Hst; [assumption|].
        destruct e; simpl in Ho; try discriminate Ho;
          injection Ho as <-; reflexivity. }
  destruct (G sched d0) as (evs & e & Hc & Hq & Ho); auto.
  { rewrite W. reflexivity. }
  exists evs, e. repeat split; try assumption.
  rewrite count_app.
  rewrite (quiet_count terminal evs Hq) by auto.
  destruct e; simpl in Ho; try discriminate Ho; reflexivity.
Qed.

Lemma attempt_ends_with_one_terminal_event_witness :
  count terminal
    (calls (after (serve_2048 ++ [PerformReturns OK 200 ""; Pause; Cancel])
                  started)) = 1%nat.
Proof.
  destruct (attempt_ends_with_one_terminal_event
              (serve_2048 ++ [PerformReturns OK 200 ""; Pause; Cancel])
              started
              (after (serve_2048 ++ [PerformReturns OK 200 ""; Pause; Cancel])
                     started)
              ltac:(by_eval) ltac:(by_eval) ltac:(by_eval) ltac:(by_eval))
    as (evs & e & Hc & _ & _ & Hn).
  change (calls started) with (@nil event) in Hc.
  rewrite Hc. exact Hn.
Defined.

(** After the cancel flag is set, a move of an engine whose worker is
    inside [perform] changes neither counter and raises nothing, unless it
    is the return of [perform], which ends the attempt as cancelled. *)
Lemma exec_stopped a d :
  is_worker_move a = true -> running (workerThread_ d) = false ->
  exec a d = None.
Proof.
  intros Ha Hr. destruct a; try discriminate Ha; simpl;
    destruct (workerThread_ d); try discriminate Hr; reflexivity.
Qed.

Lemma run_stopped sched d d' :
  no_restart sched = true -> running (workerThread_ d) = false ->
  run sched d = Some d' ->
  forallb (fun a => negb (is_worker_move a)) sched = true.
Proof.
  revert d. induction sched as [|a sched IH]; intros d Hn Hr H; simpl in *.
  - reflexivity.
  - apply andb_prop in Hn as [Ha Hn]. apply negb_true_iff in Ha.
    destruct (exec a d) as [d1|] eqn:E; [|discriminate].
    destruct (is_worker_move a) eqn:Hm.
    + rewrite (exec_stopped _ _ Hm Hr) in E. discriminate.
    + simpl. destruct (exec_idle _ _ _ E Ha Hr) as (Hw & _).
      apply (IH d1 Hn); [congruence | assumption].
Qed.

Lemma begin_setup_failure existing open_ok made msg d :
  setup_failure open_ok made (outputPath_ d) = Some msg ->
  doDownload_begin existing open_ok made d =
  finish (notifyError msg
            (set_state ERROR (set_downloadedBytes (resume_offset existing) d))).
Proof.
  unfold setup_failure, doDownload_begin, resume_offset.
  destruct open_ok; simpl.
  - destruct made; intros H; try discriminate H; injection H as <-;
      reflexivity.
  - intros H. injection H as <-. reflexivity.
Qed.

(** X8.  Failures before the transfer.  An attempt fails before the
    handle is driven when the output stream cannot be opened ("Failed to
    open output file: " and the path, whatever the factory would have
    done), or when it opens and the factory yields no handle ("Failed to
    create curl handle"), throws an exception derived from
    [std::exception] ("Unexpected exception: " and its text) or throws
    anything else ("Unknown exception in worker thread").  Whatever the
    control thread does afterwards short of a restart, the attempt has
    raised that error as its only event, the state stays ERROR, the
    counter shows the size found on disk, the total is untouched, no
    callback of the handle and no resolution can take place, and a new
    download may be started. *)
Theorem failure_before_transfer existing open_ok made msg sched d0 d' :
  workerThread_ d0 = Spawned ->
  setup_failure open_ok made (outputPath_ d0) = Some msg ->
  no_restart sched = true ->
  run (WorkerBegin existing open_ok made :: sched) d0 = Some d' ->
  state_ d' = ERROR /\ workerThread_ d' = Exited /\
  calls d' = calls d0 ++ [onError msg] /\
  downloadedBytes_ d' = resume_offset existing /\
  totalBytes_ d' = totalBytes_ d0 /\
  forallb (fun a => negb (is_worker_move a)) sched = true /\
  (forall url outputPath,
      exists d2, startDownload url outputPath d' = Some (true, d2)).
Proof.
  intros W Hm Hn H. simpl in H. rewrite W in H.
  rewrite (begin_setup_failure _ _ _ _ _ Hm) in H.
  set (d1 := finish _) in H.
  assert (R1 : running (workerThread_ d1) = false) by reflexivity.
  destruct (run_idle _ _ _ Hn R1 H) as (Hw & Hc & Hd & Ht & Hs).
  specialize (Hs eq_refl).
  split; [exact Hs|]. split; [exact Hw|]. split; [exact Hc|].
  split; [exact Hd|]. split; [exact Ht|].
  split; [exact (run_stopped _ _ _ Hn R1 H)|].
  intros url outputPath. unfold startDownload. rewrite Hs, Hw. simpl.
  eexists. reflexivity.
Qed.

Lemma failure_before_transfer_witness :
  calls (after [WorkerBegin None true FactoryThrowsOther; Pause; Cancel]
           started) =
  [onError "Unknown exception in worker thread"].
Proof.
  refine (proj1 (proj2 (proj2
            (failure_before_transfer None true FactoryThrowsOther
               "Unknown exception in worker thread" [Pause; Cancel]
               started
               (after [WorkerBegin None true FactoryThrowsOther; Pause;
                       Cancel] started) _ _ _ _)))).
  - by_eval.
  - by_eval.
  - by_eval.
  - by_eval.
Defined.

Lemma resolve_failure result httpCode lastError d :
  cancelRequested_ d = false -> state_ d <> PAUSED -> result <> OK ->
  doDownload_resolve result httpCode lastError d =
  finish (notifyError (failure_message result lastError) (set_state ERROR d)).
Proof.
  intros Hc Hs Hr. unfold doDownload_resolve.
  rewrite Hc, (not_paused _ Hs).
  destruct result; try congruence; reflexivity.
Qed.

(** X9.  Failures of the transfer.  When [perform] returns anything but
    OK while the cancel flag is unset and the state is not PAUSED, the
    attempt ends in state ERROR with exactly one error event, raised
    last, whose text depends on the result alone ("Download aborted: ",
    "Network error: ", the fixed range message, or "Download failed: ",
    each but the range message followed by the handle's error text); the
    status code plays no part, and no completed or cancelled event is
    raised. *)
Theorem transport_failure_fails
    sched d0 d1 d2 result httpCode lastError :
  workerThread_ d0 = Spawned ->
  no_restart sched = true ->
  run sched d0 = Some d1 ->
  cancelRequested_ d1 = false ->
  state_ d1 <> PAUSED ->
  result <> OK ->
  exec (PerformReturns result httpCode lastError) d1 = Some d2 ->
  state_ d2 = ERROR /\
  exists evs,
    calls d2 =
      calls d0 ++ evs ++ [onError (failure_message result lastError)] /\
    quiet evs = true /\
    count is_error (evs ++ [onError (failure_message result lastError)])
      = 1%nat.
Proof.
  intros _ Hn Hrun Hc Hs Hr Hret.
  apply exec_returns_inv in Hret as [[l Hw] ->].
  rewrite resolve_failure by assumption.
  destruct (in_flight_quiet _ _ _ Hn Hrun) as (evs & He & Hq).
  { rewrite Hw. reflexivity. }
  split; [reflexivity|].
  exists evs. simpl. rewrite He, <- app_assoc.
  split; [reflexivity|]. split; [assumption|].
  rewrite count_app. destruct (quiet_counts _ Hq) as (_ & H2 & _).
  rewrite H2. reflexivity.
Qed.

Lemma transport_failure_fails_witness :
  calls (after (serve_empty ++ [PerformReturns NETWORK_ERROR 200 "refused"])
               started) =
  [onProgress 0 0 PercentUnknown; onError "Network error: refused"].
Proof.
  destruct (transport_failure_fails serve_empty started
              (after serve_empty started)
              (after (serve_empty ++ [PerformReturns NETWORK_ERROR 200 "refused"])
                     started)
              NETWORK_ERROR 200 "refused"
              ltac:(by_eval) ltac:(by_eval) ltac:(by_eval) ltac:(by_eval)
              ltac:(by_eval) ltac:(by_eval) ltac:(by_eval))
    as (_ & evs & Hc & _).
  by_eval.
Defined.

(* ===================================================================== *)
(** ** The output stream and the handle's configuration                    *)
(* ===================================================================== *)

(** What a move leaves of the worker's locals: the resume position, the
    handle's configuration and the open mode stay; the fail bit, once
    set, stays set and then the counter no longer moves. *)
Lemma exec_locals a d d' l :
  exec a d = Some d' -> is_start a = false ->
  locals_of (workerThread_ d) = Some l ->
  match locals_of (workerThread_ d') with
  | Some l' =>
    resumeFrom l' = resumeFrom l /\ curl l' = curl l /\
    of_mode (outFile l') = of_mode (outFile l) /\
    (of_failbit (outFile l) = true ->
     of_failbit (outFile l') = true /\
     downloadedBytes_ d' = downloadedBytes_ d)
  | None =>
    workerThread_ d' = Exited /\ downloadedBytes_ d' = downloadedBytes_ d
  end /\
  url_ d' = url_ d /\ outputPath_ d' = outputPath_ d.
Proof.
  intros H Hs Hl. revert Hl.
  destruct a; try discriminate Hs; simpl in H;
    try (injection H as <-);
    destruct (workerThread_ d) as [| |l0|l0 sz io|] eqn:W;
    try discriminate H; try (injection H as <-);
    simpl; intros Hl; try discriminate Hl; injection Hl as ->;
    unfold_engine; unfold wait_over, ofstream_write;
    split_flags; simpl; rewrite ?W; simpl;
    repeat split; try reflexivity; try congruence;
    intros; simpl in *; try congruence.
Qed.

(** X10.  A failed write is permanent.  Once the output stream's fail
    bit is set, no schedule without a restart adds a byte to the counter:
    every later write callback, blocked first or not, leaves
    [downloadedBytes_] as it is, and the stream stays failed for as long
    as the worker is inside [perform]. *)
Theorem write_failure_is_permanent sched d d' l :
  locals_of (workerThread_ d) = Some l ->
  of_failbit (outFile l) = true ->
  no_restart sched = true ->
  run sched d = Some d' ->
  downloadedBytes_ d' = downloadedBytes_ d /\
  (forall l', locals_of (workerThread_ d') = Some l' ->
              of_failbit (outFile l') = true).
Proof.
  revert d l. induction sched as [|a sched IH]; intros d l Hl Hf Hn H;
    simpl in H.
  - injection H as <-. split; [reflexivity|].
    intros l' Hl'. congruence.
  - simpl in Hn. apply andb_prop in Hn as [Ha Hn]. apply negb_true_iff in Ha.
    destruct (exec a d) as [d1|] eqn:E; [|discriminate].
    pose proof (exec_locals _ _ _ _ E Ha Hl) as [Hstep _].
    destruct (locals_of (workerThread_ d1)) as [l1|] eqn:L1.
    + destruct Hstep as (_ & _ & _ & Hkeep).
      destruct (Hkeep Hf) as [Hf1 Hd1].
      destruct (IH d1 l1 L1 Hf1 Hn H) as [Hd' Hf'].
      split; [congruence | assumption].
    + destruct Hstep as [Hx Hd1].
      assert (R1 : running (workerThread_ d1) = false)
        by (rewrite Hx; reflexivity).
      destruct (run_idle _ _ _ Hn R1 H) as (Hw' & _ & Hd' & _).
      split; [congruence|].
      intros l' Hl'. rewrite Hw', Hx in Hl'. discriminate.
Qed.

Lemma write_failure_is_permanent_witness :
  downloadedBytes_
    (after [WriteCb 1024 true; Pause; WriteCb 512 true; Resume; Wake]
           (after [WriteCb 1024 false] performing))
  = downloadedBytes_ (after [WriteCb 1024 false] performing).
Proof.
  refine (proj1 (write_failure_is_permanent
                   [WriteCb 1024 true; Pause; WriteCb 512 true; Resume; Wake]
                   (after [WriteCb 1024 false] performing)
                   _
                   {| resumeFrom := 0;
                      outFile := {| of_mode := trunc; of_failbit := true;
                                    of_written := 0 |};
                      curl := {| curl_url := file_url;
                                 curl_resumeFrom := None |} |}
                   _ _ _ _)); by_eval.
Defined.

Lemma run_locals sched d d' l l' :
  no_restart sched = true ->
  locals_of (workerThread_ d) = Some l ->
  run sched d = Some d' ->
  locals_of (workerThread_ d') = Some l' ->
  resumeFrom l' = resumeFrom l /\ curl l' = curl l /\
  of_mode (outFile l') = of_mode (outFile l) /\
  url_ d' = url_ d /\ outputPath_ d' = outputPath_ d.
Proof.
  revert d l. induction sched as [|a sched IH]; intros d l Hn Hl H Hl';
    simpl in H.
  - injection H as <-. rewrite Hl in Hl'. injection Hl' as <-.
    repeat split; reflexivity.
  - simpl in Hn. apply andb_prop in Hn as [Ha Hn]. apply negb_true_iff in Ha.
    destruct (exec a d) as [d1|] eqn:E; [|discriminate].
    pose proof (exec_locals _ _ _ _ E Ha Hl) as (Hstep & Hu & Hp).
    destruct (locals_of (workerThread_ d1)) as [l1|] eqn:L1.
    + destruct Hstep as (H1 & H2 & H3 & _).
      destruct (IH d1 l1 Hn L1 H Hl') as (G1 & G2 & G3 & G4 & G5).
      repeat split; congruence.
    + destruct Hstep as [Hx _].
      assert (R1 : running (workerThread_ d1) = false)
        by (rewrite Hx; reflexivity).
      destruct (run_idle _ _ _ Hn R1 H) as (Hw' & _).
      rewrite Hw', Hx in Hl'. discriminate.
Qed.

(** X12.  What the worker hands to its collaborators.  Throughout an
    attempt started by [startDownload url outputPath], while the worker
    is inside [perform]: the handle was given [url] and the snapshot
    still shows [url] and [outputPath]; the output stream was opened for
    appending exactly when the file found on disk was non-empty, and for
    truncation otherwise; and, for byte counts that fit in 64 bits, the
    counter equals the size found on disk plus the bytes written through
    the stream. *)
Theorem worker_configuration
    url outputPath d d0 existing sched d1 l :
  startDownload url outputPath d = Some (true, d0) ->
  no_restart sched = true ->
  0 <= resume_offset existing ->
  resume_offset existing + offered sched <= Int64.max_signed ->
  run (WorkerBegin existing true FactoryHandle :: sched) d0 = Some d1 ->
  locals_of (workerThread_ d1) = Some l ->
  curl_url (curl l) = url /\
  stats_url (getStats d1) = url /\
  stats_outputPath (getStats d1) = outputPath /\
  of_mode (outFile l) =
    (if 0 <? resume_offset existing then app else trunc) /\
  curl_resumeFrom (curl l) =
    (if 0 <? resume_offset existing
     then Some (resume_offset existing) else None) /\
  downloadedBytes_ d1 = resume_offset existing + of_written (outFile l) /\
  0 <= of_written (outFile l).
Proof.
  intros Hst Hn HR Hb Hrun Hl.
  assert (Hu : url_ d0 = url /\ outputPath_ d0 = outputPath /\
               workerThread_ d0 = Spawned).
  { unfold startDownload in Hst.
    destruct (state_ d); destruct (workerThread_ d); try discriminate Hst;
      injection Hst as <-; repeat split; reflexivity. }
  destruct Hu as (Hurl & Hpath & W).
  simpl in Hrun. rewrite W in Hrun.
  pose proof (run_locals sched
                (doDownload_begin existing true FactoryHandle d0) d1 _ l
                Hn eq_refl Hrun Hl) as (H1 & H2 & H3 & H4 & H5).
  assert (Hc0 : counted (resume_offset existing) (sched ++ [])
                   (doDownload_begin existing true FactoryHandle d0)).
  { rewrite app_nil_r. apply begin_counted. assumption. }
  destruct (run_counted_app _ sched [] _ d1 HR Hn Hc0 Hrun) as [Hc _].
  unfold counted in Hc. rewrite Hl in Hc. destruct Hc as (_ & Hd & Hw & _).
  simpl in *. fold (resume_offset existing) in *.
  rewrite H2, H3. simpl.
  repeat split; try congruence; assumption.
Qed.

Lemma worker_configuration_witness :
  downloadedBytes_
    (after [WorkerBegin (Some 1024) true FactoryHandle;
            ProgressCb 1024 0; WriteCb 1024 true] started) = 1024 + 1024.
Proof.
  destruct (worker_configuration file_url file_path
              (after [AddObserver 1%N] init) started (Some 1024)
              [ProgressCb 1024 0; WriteCb 1024 true]
              (after [WorkerBegin (Some 1024) true FactoryHandle;
                      ProgressCb 1024 0; WriteCb 1024 true] started)
              {| resumeFrom := 1024;
                 outFile := {| of_mode := app; of_failbit := false;
                               of_written := 1024 |};
                 curl := {| curl_url := file_url;
                            curl_resumeFrom := Some 1024 |} |}
              ltac:(by_eval) ltac:(by_eval) ltac:(by_eval) ltac:(by_eval)
              ltac:(by_eval) ltac:(by_eval))
    as (_ & _ & _ & _ & _ & Hd & _).
  exact Hd.
Defined.

(* ===================================================================== *)
(** ** Removing an observer                                                *)
(* ===================================================================== *)

Lemma fanout_absent o obs evs :
  ~ In o obs ->
  filter (fun x : observer * event => N.eqb (fst x) o) (fanout obs evs) = [].
Proof.
  intros Hn. apply filter_none. intros x Hx. apply In_fanout in Hx.
  apply N.eqb_neq. intros E. apply Hn. rewrite <- E. assumption.
Qed.

Lemma exec_unregistered o a d d' :
  exec a d = Some d' ->
  match a with AddObserver o' => negb (N.eqb o' o) | _ => true end = true ->
  ~ In o (observers_ d) ->
  ~ In o (observers_ d') /\ received o d' = received o d.
Proof.
  intros H Hk Hn. split.
  - destruct a; try (rewrite (exec_observers _ _ _ H eq_refl); assumption).
    + simpl in H. injection H as <-. rewrite addObserver_observers.
      destruct (N.eqb o0 nullptr); [assumption|].
      destruct (registered o0 (observers_ d)); [assumption|].
      rewrite in_app_iff. intros [Hin | [-> | []]]; [contradiction|].
      rewrite N.eqb_refl in Hk. discriminate.
    + simpl in H. injection H as <-. simpl. rewrite filter_In. tauto.
  - destruct (exec_logs _ _ _ H) as (evs & _ & Hd & _).
    unfold received. rewrite Hd, filter_app, fanout_absent by assumption.
    rewrite app_nil_r. reflexivity.
Qed.

(** X11.  A removed observer receives nothing more.  After
    [removeObserver] of an observer, and for as long as it is not
    registered again, no event reaches it, whatever the engine does
    (whole downloads included): what it has received stays what it was. *)
Theorem removed_observer_receives_nothing o sched d d' :
  never_adds o sched = true ->
  run sched (removeObserver o d) = Some d' ->
  received o d' = received o d /\ ~ In o (observers_ d').
Proof.
  intros Hk Hrun.
  assert (G : forall s d1,
             never_adds o s = true -> ~ In o (observers_ d1) ->
             run s d1 = Some d' ->
             received o d' = received o d1 /\ ~ In o (observers_ d')).
  { induction s as [|a s IH]; intros d1 Hs Hn H; simpl in H.
    - injection H as <-. auto.
    - simpl in Hs. apply andb_prop in Hs as [Ha Hs].
      destruct (exec a d1) as [d2|] eqn:E; [|discriminate].
      destruct (exec_unregistered o _ _ _ E Ha Hn) as [Hn2 Hr2].
      destruct (IH d2 Hs Hn2 H) as [Hr' Hn'].
      split; [congruence | assumption]. }
  destruct (G sched (removeObserver o d) Hk) as [Hr Hn]; auto.
  { simpl. rewrite filter_In. intros [_ E]. rewrite N.eqb_refl in E.
    discriminate. }
Qed.

Lemma removed_observer_receives_nothing_witness :
  received 1%N
    (after (serve_2048 ++ [PerformReturns OK 200 ""])
           (removeObserver 1%N started)) = [].
Proof.
  refine (proj1 (removed_observer_receives_nothing 1%N
                   (serve_2048 ++ [PerformReturns OK 200 ""]) started
                   (after (serve_2048 ++ [PerformReturns OK 200 ""])
                          (removeObserver 1%N started)) _ _)); by_eval.
Defined.

(* ===================================================================== *)
(** ** The production handle and the test double                           *)
(* ===================================================================== *)

(** X13.  With the production handle a transfer that curl reports as
    failed never completes: for every curl code other than [CURLE_OK]
    the translated result is neither OK nor HTTP_ERROR, the error text is
    never empty, and the worker resolves the attempt as ERROR (as
    CANCELLED when the cancel flag is set or the state is PAUSED),
    whatever the status code.  When it is an error, the event carries the
    message chosen by the translated result and curl's error text. *)
Theorem curl_failure_never_completes code errorBuffer status d :
  code <> CURLE_OK ->
  let d' := doDownload_resolve (toCurlResult code) status
              (getLastError errorBuffer) d in
  toCurlResult code <> OK /\ toCurlResult code <> HTTP_ERROR /\
  getLastError errorBuffer <> ""%string /\
  (state_ d' = ERROR \/ state_ d' = CANCELLED) /\
  (cancelRequested_ d = false -> state_ d <> PAUSED ->
   state_ d' = ERROR /\
   calls d' =
     calls d ++
     [onError (failure_message (toCurlResult code)
                               (getLastError errorBuffer))]).
Proof.
  intros Hc. simpl.
  assert (Hr : toCurlResult code <> OK)
    by (destruct code; simpl; congruence).
  split; [assumption|].
  split; [destruct code; simpl; congruence|].
  split; [destruct errorBuffer; simpl; congruence|].
  split.
  - destruct (cancelRequested_ d) eqn:C.
    + right. rewrite resolve_cancelled by auto. reflexivity.
    + destruct (DownloadState_eqb (state_ d) PAUSED) eqn:P.
      * right. apply DownloadState_eqb_eq in P.
        rewrite resolve_cancelled by auto. reflexivity.
      * left. rewrite resolve_failure; auto.
        intros E. rewrite E in P. discriminate.
  - intros C P. rewrite resolve_failure by assumption.
    split; reflexivity.
Qed.

Lemma curl_failure_never_completes_witness :
  calls (doDownload_resolve (toCurlResult CURLE_WRITE_ERROR) 200
           (getLastError "") performing) =
  calls performing ++ [onError "Download aborted: Unknown curl error"].
Proof.
  destruct (curl_failure_never_completes CURLE_WRITE_ERROR "" 200 performing
              ltac:(discriminate))
    as (_ & _ & _ & _ & H).
  destruct (H ltac:(by_eval) ltac:(by_eval)) as [_ Hc]. exact Hc.
Defined.

Lemma size_sub_exact a b :
  Z.of_N b <= Z.of_N a < 2 ^ 64 ->
  Z.of_N (SizeT.sub a b) = Z.of_N a - Z.of_N b.
Proof.
  intros H. unfold SizeT.sub, SizeT.wrap.
  rewrite Z.mod_small by lia. rewrite Z2N.id; lia.
Qed.

Lemma size_add_exact a b :
  Z.of_N a + Z.of_N b < 2 ^ 64 ->
  Z.of_N (SizeT.add a b) = Z.of_N a + Z.of_N b.
Proof.
  intros H. unfold SizeT.add, SizeT.wrap.
  rewrite Z.mod_small by lia. rewrite Z2N.id; lia.
Qed.

Lemma size_of_int64_exact z :
  0 <= z < 2 ^ 64 -> Z.of_N (SizeT.of_int64 z) = z.
Proof.
  intros H. unfold SizeT.of_int64, SizeT.wrap.
  rewrite Z.mod_small by lia. rewrite Z2N.id; lia.
Qed.

Lemma forallb_progress_quiet evs :
  forallb is_progress evs = true -> quiet evs = true.
Proof.
  unfold quiet. induction evs as [|e evs IH]; simpl; [reflexivity|].
  intros H. apply andb_prop in H as [He H]. rewrite IH by assumption.
  destruct e; try discriminate He; reflexivity.
Qed.

Lemma forallb_snoc {A} (p : A -> bool) l x :
  forallb p l = true -> p x = true -> forallb p (l ++ [x]) = true.
Proof. intros Hl Hx. rewrite forallb_app, Hl. simpl. rewrite Hx. reflexivity. Qed.

Lemma final_progress_steady cfg R s base d :
  0 <= R -> Z.of_N (totalSize cfg) + R <= Int64.max_signed ->
  steady cfg R s base (totalSize cfg) d ->
  steady cfg R s base (totalSize cfg)
    (snd (progressCallback
            (Int64.of_size_t (totalSize cfg))
            (Int64.of_size_t
               (SizeT.sub (totalSize cfg) (SizeT.of_int64 R)))
            d)) /\
  totalBytes_
    (snd (progressCallback
            (Int64.of_size_t (totalSize cfg))
            (Int64.of_size_t
               (SizeT.sub (totalSize cfg) (SizeT.of_int64 R)))
            d))
  = (if 0 <? Z.of_N (totalSize cfg) then Z.of_N (totalSize cfg) + R
     else 0).
Proof.
  intros HR Hmax ([l [Hw Hf]] & Hc & Hp & Hs & Hd & Hb & Hz & evs & He & Hq).
  rewrite max_signed_value in Hmax.
  assert (Hrf : Z.of_N (SizeT.of_int64 R) = R)
    by (apply size_of_int64_exact; lia).
  assert (Hsub : Z.of_N (SizeT.sub (totalSize cfg) (SizeT.of_int64 R))
                 = Z.of_N (totalSize cfg) - R)
    by (rewrite size_sub_exact; lia).
  assert (E1 : Int64.of_size_t (totalSize cfg) = Z.of_N (totalSize cfg))
    by (apply Int64Facts.of_size_t_exact; rewrite max_signed_value; lia).
  assert (E2 : Int64.of_size_t
                 (SizeT.sub (totalSize cfg) (SizeT.of_int64 R))
               = Z.of_N (totalSize cfg) - R).
  { rewrite Int64Facts.of_size_t_exact; rewrite ?Hsub, ?max_signed_value;
      lia. }
  unfold progressCallback. rewrite Hc, E1, E2, Hd.
  destruct (0 <? Z.of_N (totalSize cfg)) eqn:Lt; simpl.
  - apply Z.ltb_lt in Lt.
    rewrite Int64Facts.sub_exact, Int64Facts.add_exact
      by (unfold Int64.in_range;
          rewrite ?min_signed_value, ?max_signed_value; lia).
    split; [|lia].
    unfold steady. simpl.
    split; [exists l; auto|].
    do 4 (split; [assumption|]).
    split; [lia|].
    split; [intros E; rewrite E in Lt; simpl in Lt; lia|].
    eexists. rewrite He, <- app_assoc. split; [reflexivity|].
    apply forallb_snoc; [assumption | reflexivity].
  - apply Z.ltb_ge in Lt.
    split; [|apply Hz; lia].
    unfold steady. simpl.
    split; [exists l; auto|].
    do 4 (split; [assumption|]).
    split; [lia|].
    split; [assumption|].
    eexists. rewrite He, <- app_assoc. split; [reflexivity|].
    apply forallb_snoc; [assumption | reflexivity].
Qed.

#[local] Arguments progressCallback : simpl never.
#[local] Arguments writeCallback : simpl never.
#[local] Arguments SizeT.sub : simpl never.
#[local] Arguments SizeT.add : simpl never.
#[local] Arguments SizeT.of_int64 : simpl never.
#[local] Arguments N.min : simpl never.
#[local] Arguments N.ltb : simpl never.
#[local] Arguments N.eqb : simpl never.
#[local] Arguments Z.eqb : simpl never.

(** One chunk of an undisturbed transfer: a progress report, then the
    write; the engine takes the whole chunk. *)
Lemma chunk_steady cfg R s base io_ok sent d :
  0 <= R -> Z.of_N (totalSize cfg) + R <= Int64.max_signed ->
  io_ok sent = true ->
  steady cfg R s base sent d -> (sent < totalSize cfg)%N ->
  let toSend := N.min (chunkSize cfg) (SizeT.sub (totalSize cfg) sent) in
  let p := progressCallback
             (Int64.of_size_t
                (SizeT.sub (totalSize cfg) (SizeT.of_int64 R)))
             (Int64.of_size_t (SizeT.sub sent (SizeT.of_int64 R))) d in
  fst p = 0 /\
  exists l d2,
    workerThread_ (snd p) = InPerform l /\
    writeCallback toSend (io_ok sent) l (snd p) = (Some toSend, d2) /\
    steady cfg R s base (SizeT.add sent toSend) d2 /\
    Z.of_N (SizeT.add sent toSend) = Z.of_N sent + Z.of_N toSend /\
    ((0 < chunkSize cfg)%N -> 0 < Z.of_N toSend) /\
    (chunkSize cfg = 0%N -> toSend = 0%N).
Proof.
  intros HR Hmax Hio
         ([l [Hw Hf]] & Hc & Hp & Hs & Hd & Hb & Hz & evs & He & Hq) Hlt.
  rewrite max_signed_value in Hmax.
  assert (Hrf : Z.of_N (SizeT.of_int64 R) = R)
    by (apply size_of_int64_exact; lia).
  assert (Hrem : Z.of_N (SizeT.sub (totalSize cfg) sent)
                 = Z.of_N (totalSize cfg) - Z.of_N sent)
    by (rewrite size_sub_exact; lia).
  assert (E1 : Int64.of_size_t
                 (SizeT.sub (totalSize cfg) (SizeT.of_int64 R))
               = Z.of_N (totalSize cfg) - R).
  { rewrite Int64Facts.of_size_t_exact; rewrite ?size_sub_exact;
      rewrite ?max_signed_value; lia. }
  assert (E2 : Int64.of_size_t (SizeT.sub sent (SizeT.of_int64 R))
               = Z.of_N sent - R).
  { rewrite Int64Facts.of_size_t_exact; rewrite ?size_sub_exact;
      rewrite ?max_signed_value; lia. }
  intros toSend p.
  assert (Hts : 0 <= Z.of_N toSend <= Z.of_N (totalSize cfg) - Z.of_N sent).
  { unfold toSend. lia. }
  assert (Hadd : Z.of_N (SizeT.add sent toSend) = Z.of_N sent + Z.of_N toSend)
    by (apply size_add_exact; lia).
  subst p. unfold progressCallback. rewrite Hc, E1, E2, Hd.
  assert (Lt : (0 <? Z.of_N (totalSize cfg) - R) = true)
    by (apply Z.ltb_lt; lia).
  rewrite Lt. simpl.
  split; [reflexivity|].
  exists l. eexists. split; [exact Hw|].
  unfold writeCallback, write_chunk, ofstream_write. simpl.
  rewrite Hc, Hp, Hf, Hio. simpl.
  split; [reflexivity|].
  split; [|split; [exact Hadd | unfold toSend; split; intros; lia]].
  unfold steady. simpl.
  split; [eexists; split; reflexivity|].
  do 3 (split; [assumption|]).
  rewrite Hd, fetch_add_exact by (rewrite ?max_signed_value; lia).
  split; [lia|]. split; [lia|].
  split; [intros E; rewrite E in Hlt; lia|].
  eexists. rewrite He, <- app_assoc. split; [reflexivity|].
  apply forallb_snoc; [assumption | reflexivity].
Qed.

Lemma mock_loop_completes cfg R s base io_ok :
  0 <= R -> Z.of_N (totalSize cfg) + R <= Int64.max_signed ->
  (0 < chunkSize cfg)%N -> (forall n, io_ok n = true) ->
  forall fuel sent d,
    steady cfg R s base sent d ->
    Z.of_N (totalSize cfg) - Z.of_N sent <= Z.of_nat fuel ->
    exists d',
      mock_loop fuel cfg R io_ok sent d
        = Returned (returnResult cfg) (httpCode cfg) d' /\
      steady cfg R s base (totalSize cfg) d' /\
      totalBytes_ d' =
        (if 0 <? Z.of_N (totalSize cfg) then Z.of_N (totalSize cfg) + R
         else 0).
Proof.
  intros HR Hmax Hchunk Hio.
  induction fuel as [|fuel IH]; intros sent d Hst Hm;
    destruct (sent <? totalSize cfg)%N eqn:Lt.
  - apply N.ltb_lt in Lt. lia.
  - simpl. rewrite Lt. apply N.ltb_ge in Lt.
    assert (E : sent = totalSize cfg).
    { destruct Hst as (_ & _ & _ & _ & _ & Hb & _). lia. }
    subst sent. eexists. split; [reflexivity|].
    apply final_progress_steady; assumption.
  - apply N.ltb_lt in Lt.
    destruct (chunk_steady cfg R s base io_ok sent d HR Hmax
                (Hio sent) Hst Lt)
      as (Hret & l & d2 & Hw & Hwr & Hst2 & Hadd & Hpos & _).
    specialize (Hpos Hchunk).
    destruct (IH _ d2 Hst2) as (d' & Hloop & Hfin); [lia|].
    exists d'. split; [|exact Hfin].
    simpl. apply N.ltb_lt in Lt. rewrite Lt, Hret. simpl.
    rewrite Hw, Hwr, N.eqb_refl. simpl. exact Hloop.
  - simpl. rewrite Lt. apply N.ltb_ge in Lt.
    assert (E : sent = totalSize cfg).
    { destruct Hst as (_ & _ & _ & _ & _ & Hb & _). lia. }
    subst sent. eexists. split; [reflexivity|].
    apply final_progress_steady; assumption.
Qed.

Lemma mock_loop_never_returns cfg R s base io_ok :
  0 <= R -> Z.of_N (totalSize cfg) + R <= Int64.max_signed ->
  chunkSize cfg = 0%N -> (forall n, io_ok n = true) ->
  forall fuel sent d,
    steady cfg R s base sent d -> (sent < totalSize cfg)%N ->
    mock_loop fuel cfg R io_ok sent d = Looping.
Proof.
  intros HR Hmax Hchunk Hio.
  induction fuel as [|fuel IH]; intros sent d Hst Lt;
    pose proof Lt as Ltb; apply N.ltb_lt in Ltb.
  - simpl. rewrite Ltb. reflexivity.
  - destruct (chunk_steady cfg R s base io_ok sent d HR Hmax
                (Hio sent) Hst Lt)
      as (Hret & l & d2 & Hw & Hwr & Hst2 & Hadd & _ & Hzero).
    specialize (Hzero Hchunk). rewrite Hzero in *.
    assert (E : SizeT.add sent 0 = sent) by lia.
    rewrite E in *.
    simpl. rewrite Ltb, Hret. simpl. rewrite Hw.
    fold (N.min (chunkSize cfg) (SizeT.sub (totalSize cfg) sent)).
    rewrite Hzero, Hwr. simpl. rewrite E. apply IH; assumption.
Qed.

Lemma begin_steady url outputPath d d0 cfg existing :
  startDownload url outputPath d = Some (true, d0) ->
  0 <= resume_offset existing <= Z.of_N (totalSize cfg) ->
  Z.of_N (totalSize cfg) + resume_offset existing <= Int64.max_signed ->
  exists l,
    workerThread_ (doDownload_begin existing true FactoryHandle d0)
      = InPerform l /\
    match curl_resumeFrom (curl l) with Some n => n | None => 0 end
      = resume_offset existing /\
    steady cfg (resume_offset existing) DOWNLOADING (calls d0)
      (SizeT.of_int64 (resume_offset existing))
      (doDownload_begin existing true FactoryHandle d0).
Proof.
  intros Hst HR Hmax.
  apply startDownload_true_inv in Hst as (W & Ht & Hd & Hc & Hp & Hs).
  rewrite max_signed_value in Hmax.
  assert (Hrf : Z.of_N (SizeT.of_int64 (resume_offset existing))
                = resume_offset existing)
    by (apply size_of_int64_exact; lia).
  eexists. split; [reflexivity|]. split.
  - simpl. fold (resume_offset existing).
    destruct (0 <? resume_offset existing) eqn:Lt; [reflexivity|].
    apply Z.ltb_ge in Lt. lia.
  - unfold steady. simpl. fold (resume_offset existing).
    split; [eexists; split; reflexivity|].
    do 3 (split; [assumption|]).
    split; [lia|]. split; [lia|]. split; [auto|].
    exists []. rewrite app_nil_r. split; reflexivity.
Qed.

(** X14.  The test double against the engine, nobody interfering.  For
    every total size, every positive chunk size and every resume position
    not beyond the total (the double supporting ranges if the position is
    positive), with a disk that takes every chunk, result OK and a status
    below 400: [perform] returns, the attempt ends COMPLETED, the counter
    equals the total size, only progress events precede the final 100%
    progress and the completed event, and [totalBytes_] ends as the total
    size plus the resume position - so the counter equals [totalBytes_]
    at completion exactly when the download did not resume. *)
Theorem mock_download_completes
    url outputPath d d0 cfg existing io_ok :
  startDownload url outputPath d = Some (true, d0) ->
  returnResult cfg = OK -> httpCode cfg < 400 ->
  (0 < chunkSize cfg)%N ->
  0 <= resume_offset existing <= Z.of_N (totalSize cfg) ->
  Z.of_N (totalSize cfg) + resume_offset existing <= Int64.max_signed ->
  (0 < resume_offset existing -> supportsRange cfg = true) ->
  (forall n, io_ok n = true) ->
  exists d',
    mock_download (N.to_nat (totalSize cfg)) cfg io_ok existing d0
      = Some d' /\
    state_ d' = COMPLETED /\ workerThread_ d' = Exited /\
    downloadedBytes_ d' = Z.of_N (totalSize cfg) /\
    totalBytes_ d' =
      (if 0 <? Z.of_N (totalSize cfg)
       then Z.of_N (totalSize cfg) + resume_offset existing else 0) /\
    exists evs,
      calls d' =
        calls d0 ++ evs ++
        [onProgress (Z.of_N (totalSize cfg))
           (if 0 <? Z.of_N (totalSize cfg)
            then Z.of_N (totalSize cfg) + resume_offset existing
            else Z.of_N (totalSize cfg))
           PercentFull;
         onCompleted] /\
      forallb is_progress evs = true.
Proof.
  intros Hst Hok Hcode Hchunk HR Hmax Hrange Hio.
  destruct (begin_steady url outputPath d d0 cfg existing Hst HR Hmax)
    as (l & Hw & Hrf & Hsteady).
  destruct (mock_loop_completes cfg (resume_offset existing) DOWNLOADING
              (calls d0) io_ok (proj1 HR) Hmax Hchunk Hio
              (N.to_nat (totalSize cfg)) _ _ Hsteady)
    as (d2 & Hloop & Hfin & Htot).
  { rewrite size_of_int64_exact by (rewrite max_signed_value in Hmax; lia).
    lia. }
  destruct Hfin as (_ & Hc & _ & Hs & Hd & _ & _ & evs & He & Hq).
  unfold mock_download. rewrite Hw, Hrf.
  unfold mock_perform. rewrite Hok. simpl.
  assert (Hr : (0 <? resume_offset existing) && negb (supportsRange cfg)
               = false).
  { destruct (0 <? resume_offset existing) eqn:Lt; [|reflexivity].
    apply Z.ltb_lt in Lt. rewrite (Hrange Lt). reflexivity. }
  rewrite Hr, Hloop, Hok.
  eexists. split; [reflexivity|].
  rewrite resolve_completed; try assumption; [|rewrite Hs; discriminate].
  simpl. rewrite Hd, Htot, He.
  split; [reflexivity|]. split; [reflexivity|]. split; [reflexivity|].
  split; [reflexivity|].
  exists evs. rewrite <- !app_assoc.
  split; [|assumption].
  destruct (0 <? Z.of_N (totalSize cfg)) eqn:Lt; simpl.
  - apply Z.ltb_lt in Lt.
    replace (0 <? Z.of_N (totalSize cfg) + resume_offset existing)
      with true by (symmetry; apply Z.ltb_lt; lia).
    reflexivity.
  - reflexivity.
Qed.

Lemma mock_download_completes_witness :
  exists d',
    mock_download 4096 mock_4096 (fun _ => true) None started = Some d' /\
    state_ d' = COMPLETED /\ downloadedBytes_ d' = 4096.
Proof.
  destruct (mock_download_completes file_url file_path
              (after [AddObserver 1%N] init) started mock_4096 None
              (fun _ => true)
              ltac:(by_eval) ltac:(by_eval) ltac:(by_eval) ltac:(by_eval)
              ltac:(by_eval) ltac:(by_eval)
              ltac:(intros; reflexivity) ltac:(intros; reflexivity))
    as (d' & H & Hs & _ & Hd & _).
  exists d'. repeat split; assumption.
Defined.

(** X15.  The test double with a chunk size of 0 never returns from
    [perform] when there is anything to send: whatever the fuel, the loop
    is still running (each round reports progress and passes an empty
    chunk, which the engine accepts), so the attempt never resolves. *)
Theorem mock_zero_chunk_never_returns
    url outputPath d d0 cfg existing io_ok fuel :
  startDownload url outputPath d = Some (true, d0) ->
  returnResult cfg = OK ->
  chunkSize cfg = 0%N ->
  0 <= resume_offset existing < Z.of_N (totalSize cfg) ->
  Z.of_N (totalSize cfg) + resume_offset existing <= Int64.max_signed ->
  (0 < resume_offset existing -> supportsRange cfg = true) ->
  (forall n, io_ok n = true) ->
  mock_perform fuel cfg (resume_offset existing) io_ok
    (doDownload_begin existing true FactoryHandle d0) = Looping /\
  mock_download fuel cfg io_ok existing d0 = None.
Proof.
  intros Hst Hok Hchunk HR Hmax Hrange Hio.
  destruct (begin_steady url outputPath d d0 cfg existing Hst
              ltac:(lia) Hmax)
    as (l & Hw & Hrf & Hsteady).
  assert (Hloop : mock_perform fuel cfg (resume_offset existing) io_ok
                    (doDownload_begin existing true FactoryHandle d0)
                  = Looping).
  { unfold mock_perform. rewrite Hok. simpl.
    assert (Hr : (0 <? resume_offset existing) && negb (supportsRange cfg)
                 = false).
    { destruct (0 <? resume_offset existing) eqn:Lt; [|reflexivity].
      apply Z.ltb_lt in Lt. rewrite (Hrange Lt). reflexivity. }
    rewrite Hr.
    eapply mock_loop_never_returns; try eassumption; [lia|].
    assert (Z.of_N (SizeT.of_int64 (resume_offset existing))
            = resume_offset existing)
      by (apply size_of_int64_exact;
          rewrite max_signed_value in Hmax; lia).
    lia. }
  split; [exact Hloop|].
  unfold mock_download. rewrite Hw, Hrf, Hloop. reflexivity.
Qed.

Lemma mock_zero_chunk_never_returns_witness :
  mock_download 1000
    {| totalSize := 2048; chunkSize := 0; returnResult := OK;
       httpCode := 200; errorMessage := ""; supportsRange := true |}
    (fun _ => true) None started = None.
Proof.
  refine (proj2 (mock_zero_chunk_never_returns file_url file_path
                   (after [AddObserver 1%N] init) started _ None
                   (fun _ => true) 1000 _ _ _ _ _ _ _));
    try by_eval; intros; reflexivity.
Defined.

(** X16.  Resuming against a test double that does not support ranges:
    with a non-empty file on disk the double returns
    RANGE_NOT_SATISFIED before any callback, and the attempt ends in
    state ERROR with the single event "Server does not support resume
    (Range not satisfied)", the counter standing at the size found on
    disk and [totalBytes_] still 0. *)
Theorem mock_resume_unsupported
    url outputPath d d0 cfg existing io_ok fuel :
  startDownload url outputPath d = Some (true, d0) ->
  returnResult cfg = OK \/ returnResult cfg = ABORTED_BY_CALLBACK ->
  0 < resume_offset existing ->
  supportsRange cfg = false ->
  exists d',
    mock_download fuel cfg io_ok existing d0 = Some d' /\
    state_ d' = ERROR /\
    calls d' =
      calls d0 ++
      [onError "Server does not support resume (Range not satisfied)"] /\
    downloadedBytes_ d' = resume_offset existing /\
    totalBytes_ d' = 0.
Proof.
  intros Hst Hres HR Hrange.
  apply startDownload_true_inv in Hst as (W & Ht & Hd & Hc & Hp & Hs).
  unfold mock_download. simpl. fold (resume_offset existing).
  pose proof HR as Lt. apply Z.ltb_lt in Lt. rewrite Lt.
  unfold mock_perform. rewrite Lt, Hrange.
  assert (Hfirst : negb (CurlResult_eqb (returnResult cfg) OK)
                   && negb (CurlResult_eqb (returnResult cfg)
                              ABORTED_BY_CALLBACK) = false).
  { destruct Hres as [-> | ->]; reflexivity. }
  rewrite Hfirst. simpl.
  eexists. split; [reflexivity|].
  unfold doDownload_resolve. simpl. rewrite Hc, Hs. simpl.
  repeat split; try reflexivity. assumption.
Qed.

Lemma mock_resume_unsupported_witness :
  exists d',
    mock_download 10
      {| totalSize := 2048; chunkSize := 1024; returnResult := OK;
         httpCode := 206; errorMessage := ""; supportsRange := false |}
      (fun _ => true) (Some 1024) started = Some d' /\
    state_ d' = ERROR.
Proof.
  destruct (mock_resume_unsupported file_url file_path
              (after [AddObserver 1%N] init) started
              {| totalSize := 2048; chunkSize := 1024; returnResult := OK;
                 httpCode := 206; errorMessage := "";
                 supportsRange := false |}
              (Some 1024) (fun _ => true) 10%nat
              ltac:(by_eval) (or_introl eq_refl) ltac:(by_eval)
              ltac:(by_eval))
    as (d' & H & Hs & _).
  exists d'. split; assumption.
Defined.

(* ===================================================================== *)
(** ** Snapshots and the time between attempts                             *)
(* ===================================================================== *)

(** X17.  A snapshot taken right after a progress callback agrees with
    the event that callback raised: whenever the callback runs with the
    cancel flag unset, the last event is a progress event carrying
    exactly the downloaded count, total and percentage that [getStats]
    then reports; the percentage is unknown exactly when the total is not
    positive. *)
Theorem snapshot_agrees_with_progress dltotal dlnow d d' :
  cancelRequested_ d = false ->
  exec (ProgressCb dltotal dlnow) d = Some d' ->
  calls d' =
    calls d ++
    [onProgress (stats_downloadedBytes (getStats d'))
                (stats_totalBytes (getStats d'))
                (stats_percent (getStats d'))] /\
  (stats_percent (getStats d') = PercentUnknown <->
   stats_totalBytes (getStats d') <= 0) /\
  stats_state (getStats d') = state_ d.
Proof.
  intros Hc H. simpl in H.
  destruct (workerThread_ d); try discriminate H. injection H as <-.
  unfold progressCallback. rewrite Hc.
  destruct (0 <? dltotal); simpl;
    (split; [reflexivity|]); (split; [|reflexivity]);
    unfold percent_of;
    match goal with
    | |- context [0 <? ?t] => destruct (0 <? t) eqn:Lt
    end;
    try (apply Z.ltb_lt in Lt); try (apply Z.ltb_ge in Lt);
    split; intros H; try discriminate H; try reflexivity; lia.
Qed.

Lemma snapshot_agrees_with_progress_witness :
  stats_percent
    (getStats (after [ProgressCb 2048 0] performing)) = PercentRatio 0 2048.
Proof.
  destruct (snapshot_agrees_with_progress 2048 0 performing
              (after [ProgressCb 2048 0] performing)
              ltac:(by_eval) ltac:(by_eval))
    as (_ & _ & _).
  by_eval.
Defined.

(** X19.  Nothing is raised between attempts.  Once the worker has
    exited (or before the first start), no schedule without a restart
    raises or delivers any event, changes a counter or leaves a terminal
    state: an observer registered after the end of an attempt receives
    nothing from it. *)
Theorem silent_between_attempts sched d d' :
  running (workerThread_ d) = false ->
  no_restart sched = true ->
  run sched d = Some d' ->
  calls d' = calls d /\ delivered d' = delivered d /\
  downloadedBytes_ d' = downloadedBytes_ d /\
  totalBytes_ d' = totalBytes_ d /\
  (active (state_ d) = false -> state_ d' = state_ d).
Proof.
  revert d. induction sched as [|a sched IH]; intros d Hr Hn H; simpl in H.
  - injection H as <-. repeat split; reflexivity.
  - simpl in Hn. apply andb_prop in Hn as [Ha Hn]. apply negb_true_iff in Ha.
    destruct (exec a d) as [d1|] eqn:E; [|discriminate].
    destruct (exec_idle _ _ _ E Ha Hr) as (Hw & Hc & Hd & Ht & Hs).
    destruct (exec_logs _ _ _ E) as (evs & Hc1 & Hd1 & _).
    assert (Hevs : evs = []).
    { rewrite Hc in Hc1. rewrite <- (app_nil_r (calls d)) in Hc1 at 1.
      apply app_inv_head in Hc1. congruence. }
    subst evs. simpl in Hd1. rewrite app_nil_r in Hd1.
    destruct (IH d1) as (Hc' & Hdl' & Hd' & Ht' & Hs');
      [congruence | assumption | assumption |].
    repeat split; try congruence.
    intros Hact. rewrite Hs', Hs; auto. rewrite Hs; auto.
Qed.

Lemma silent_between_attempts_witness :
  received 9%N
    (after [AddObserver 9%N; Pause; Resume; Cancel]
           (after (serve_2048 ++ [PerformReturns OK 200 ""]) started)) = [].
Proof.
  destruct (silent_between_attempts
              [AddObserver 9%N; Pause; Resume; Cancel]
              (after (serve_2048 ++ [PerformReturns OK 200 ""]) started)
              (after [AddObserver 9%N; Pause; Resume; Cancel]
                     (after (serve_2048 ++ [PerformReturns OK 200 ""])
                            started))
              ltac:(by_eval) ltac:(by_eval) ltac:(by_eval))
    as (_ & Hd & _).
  unfold received. rewrite Hd. by_eval.
Defined.

(* ===================================================================== *)
(** ** Single accesses                                                     *)
(* ===================================================================== *)

Ltac unfold_act :=
  unfold act, next, addObserver, removeObserver, startDownload,
    doDownload_begin, write_chunk, progress_body, setup_failure, finish in *.

Ltac split_hyp H :=
  repeat match type of H with
         | context [match ?x with _ => _ end] => destruct x eqn:?
         | context [if ?x then _ else _] => destruct x eqn:?
         end.

Ltac fine_eval :=
  unfold pieces, embed, acts, act, next, doDownload_resolve,
    progressCallback, writeCallback, waitIfPaused_wake, wait_over,
    setup_failure, progress_body, write_chunk, finish, addObserver,
    removeObserver, startDownload, doDownload_begin, pause, resume, cancel;
  simpl.

Lemma acts_app l1 l2 s :
  acts (l1 ++ l2) s =
  match acts l1 s with Some s1 => acts l2 s1 | None => None end.
Proof.
  revert s. induction l1 as [|a l1 IH]; intros s; simpl; [reflexivity|].
  destruct (act a s); [apply IH | reflexivity].
Qed.

Lemma act_settled a s s' :
  settled s -> act a s = Some s' -> settled s'.
Proof.
  intros [Ha Hs Hr] H. destruct s as [d p t f].
  unfold before_store, at_work in *.
  simpl in *. revert Ha Hs Hr.
  destruct a; unfold_act; simpl in H; split_cases; subst; simpl in *;
    intros Ha Hs Hr;
    (split; unfold before_store, at_work; simpl; use_eqns; simpl;
     try reflexivity; try assumption; try congruence);
    match goal with
    | |- false = active ?v => destruct v; simpl in *; congruence
    end.
Qed.

Lemma acts_settled l s s' :
  settled s -> acts l s = Some s' -> settled s'.
Proof.
  revert s. induction l as [|a l IH]; intros s Hs H; simpl in H.
  - injection H as <-. exact Hs.
  - destruct (act a s) as [s1|] eqn:E; [|discriminate].
    eapply IH; [|exact H]. eapply act_settled; eassumption.
Qed.

Lemma attainable_settled s : attainable s -> settled s.
Proof.
  intros [l H]. eapply acts_settled; [|exact H].
  split; reflexivity.
Qed.

(** X18.  The state machine, access by access.  In every state the model
    of single accesses can reach, an access leaves [state_] alone or
    changes it along the table: from a state that is not active to
    DOWNLOADING (a start), from DOWNLOADING to PAUSED and from PAUSED to
    DOWNLOADING (the compare-exchanges), from DOWNLOADING or PAUSED to
    COMPLETED, CANCELLED or ERROR (the worker's store).  So a terminal
    state is left only by a start and IDLE is never entered again.  The
    worker does not look at the state its store replaces: a pause that
    lands between the 100% progress notification and the store is
    followed by the change from PAUSED to COMPLETED. *)
Theorem state_changes_follow_table a s s' :
  attainable s ->
  act a s = Some s' ->
  state_ (engine s') = state_ (engine s) \/
  transition (state_ (engine s)) (state_ (engine s')) = true.
Proof.
  intros Hr H. apply attainable_settled in Hr. destruct Hr as [Ha Hs Hr].
  destruct s as [d p t f]. unfold before_store, at_work in *.
  simpl in *. revert Ha Hs Hr.
  destruct a; unfold_act; simpl in H; split_cases; subst; simpl in *;
    intros Ha Hs Hr; use_eqns; auto;
    try discriminate Hr;
    match goal with
    | |- ?v = state_ ?d \/ _ =>
      destruct v, (state_ d); simpl in *; try discriminate; auto
    end.
Qed.

Lemma state_changes_follow_table_witness :
  state_ (engine (after_acts pause_before_store fresh)) = PAUSED /\
  state_ (engine (after_acts (pause_before_store ++ [Next]) fresh))
    = COMPLETED /\
  transition (state_ (engine (after_acts pause_before_store fresh)))
    (state_ (engine (after_acts (pause_before_store ++ [Next]) fresh)))
  = true.
Proof.
  split; [by_eval|]. split; [by_eval|].
  destruct (state_changes_follow_table Next
              (after_acts pause_before_store fresh)
              (after_acts (pause_before_store ++ [Next]) fresh))
    as [H | H].
  - exists pause_before_store. by_eval.
  - by_eval.
  - vm_compute in H. discriminate H.
  - exact H.
Defined.

Lemma act_cancelling B T C a s s' :
  is_call_start a = false ->
  cancelling B T C s -> act a s = Some s' -> cancelling B T C s'.
Proof.
  intros Hn (Hc & Hb & Ht & Hm) H. destruct s as [d p t f].
  unfold cancelling. simpl in *.
  destruct (workerThread_ d) as [| |l|l sz io|] eqn:W; try contradiction;
    destruct p as [| | | | | | | | | | |v e|e]; try contradiction;
    try (destruct v; try contradiction);
    try (destruct e; try contradiction);
    (destruct a; try discriminate Hn; unfold_act; simpl in H;
     rewrite ?W, ?Hc in H; simpl in H; split_hyp H;
     try discriminate H; injection H as <-; simpl;
     rewrite ?W, ?Hc; simpl; auto);
    try (destruct Hm as [Hm1 Hm2]); repeat split; congruence.
Qed.

Lemma acts_cancelling B T C l s s' :
  no_start l = true ->
  cancelling B T C s -> acts l s = Some s' -> cancelling B T C s'.
Proof.
  revert s. induction l as [|a l IH]; intros s Hn Hs H; simpl in *.
  - injection H as <-. exact Hs.
  - apply andb_prop in Hn as [Ha Hn]. apply negb_true_iff in Ha.
    destruct (act a s) as [s1|] eqn:E; [|discriminate].
    eapply IH; [exact Hn | | exact H]. eapply act_cancelling; eassumption.
Qed.

Lemma act_draining B c a s s' :
  is_call_start a = false ->
  draining B c s -> act a s = Some s' -> draining B c s'.
Proof.
  intros Hn (Hc & Hw & Hm) H. destruct s as [d p t f].
  unfold draining. simpl in *.
  destruct (workerThread_ d) as [| |l|l sz io|] eqn:W; try congruence;
    destruct p as [| | | | | | | | | | |v e|e];
    (destruct a; try discriminate Hn; unfold_act; simpl in H;
     rewrite ?W, ?Hc in H; simpl in H; split_hyp H;
     try discriminate H; injection H as <-; simpl;
     rewrite ?W, ?Hc; simpl; auto);
    (split; [reflexivity|]); (split; [congruence|]);
    try (destruct Hm as [<- <-]); auto.
Qed.

Lemma acts_draining B c l s s' :
  no_start l = true ->
  draining B c s -> acts l s = Some s' -> draining B c s'.
Proof.
  revert s. induction l as [|a l IH]; intros s Hn Hs H; simpl in *.
  - injection H as <-. exact Hs.
  - apply andb_prop in Hn as [Ha Hn]. apply negb_true_iff in Ha.
    destruct (act a s) as [s1|] eqn:E; [|discriminate].
    eapply IH; [exact Hn | | exact H]. eapply act_draining; eassumption.
Qed.

(** X6.  Cancellation is final, access by access.  Let the cancel flag be
    set while the worker is inside [perform], and let any accesses follow
    short of a restart, overlapping calls of [pause], [resume] and
    [cancel] included.  The counter ends where it was, or higher by the
    one chunk in flight: that of a write callback which had already
    passed its last test of the flag.  And when the worker stood at a
    guarded point (no callback in progress, or inside the wait of
    [waitIfPaused]), nothing is written, counted or raised until the
    attempt ends CANCELLED with cancelled as its only event. *)
Theorem cancel_is_final l s s' w :
  cancelRequested_ (engine s) = true ->
  workerThread_ (engine s) = InPerform w ->
  no_start l = true ->
  acts l s = Some s' ->
  (downloadedBytes_ (engine s') = downloadedBytes_ (engine s) \/
   downloadedBytes_ (engine s') =
     Int64.add (downloadedBytes_ (engine s))
               (Int64.of_size_t (in_flight (at_ s)))) /\
  (guarded (at_ s) = true ->
   downloadedBytes_ (engine s') = downloadedBytes_ (engine s) /\
   totalBytes_ (engine s') = totalBytes_ (engine s) /\
   ((at_work (workerThread_ (engine s')) = true /\
     calls (engine s') = calls (engine s)) \/
    (workerThread_ (engine s') = Exited /\
     state_ (engine s') = CANCELLED /\
     calls (engine s') = calls (engine s) ++ [onCancelled]))).
Proof.
  intros Hc W Hn H. split.
  - assert (D : draining (downloadedBytes_ (engine s)) (in_flight (at_ s)) s).
    { unfold draining. rewrite Hc, W. split; [reflexivity|].
      split; [discriminate|].
      destruct (at_ s); simpl; auto. }
    destruct (acts_draining _ _ _ _ _ Hn D H) as (_ & _ & Hm).
    destruct (at_ s'); try exact Hm; destruct Hm as [Hm _]; auto.
  - intros Hg.
    assert (K : cancelling (downloadedBytes_ (engine s))
                  (totalBytes_ (engine s)) (calls (engine s)) s).
    { unfold cancelling. rewrite Hc, W. repeat split.
      destruct (at_ s); try discriminate Hg; reflexivity. }
    destruct (acts_cancelling _ _ _ _ _ _ Hn K H) as (_ & Hb & Ht & Hm).
    split; [exact Hb|]. split; [exact Ht|].
    destruct (workerThread_ (engine s')) as [| |l'|l' sz io|];
      try contradiction; simpl.
    + left. split; [reflexivity|].
      destruct (at_ s') as [| | | | | | | | | | |v e|e]; try contradiction;
        try exact Hm;
        try (destruct v; try contradiction);
        destruct e; try contradiction; try exact Hm. apply Hm.
    + right. destruct (at_ s'); try contradiction.
      destruct Hm as [Hm1 Hm2]. auto.
Qed.

Lemma cancel_is_final_witness :
  downloadedBytes_ (engine (after_acts cancel_after_test fresh)) = 0 /\
  downloadedBytes_
    (engine (after_acts (cancel_after_test ++ [Next; Next]) fresh)) = 1024.
Proof.
  split; [by_eval|].
  destruct (cancel_is_final [Next; Next]
              (after_acts cancel_after_test fresh)
              (after_acts (cancel_after_test ++ [Next; Next]) fresh)
              {| resumeFrom := 0;
                 outFile := {| of_mode := trunc; of_failbit := false;
                               of_written := 0 |};
                 curl := {| curl_url := file_url;
                            curl_resumeFrom := None |} |}
              ltac:(by_eval) ltac:(by_eval) ltac:(by_eval) ltac:(by_eval))
    as [[H | H] _].
  - vm_compute in H. discriminate H.
  - vm_compute in H |- *. exact H.
Defined.

Lemma pieces_sound a d d' :
  exec a d = Some d' ->
  acts (pieces a d) (embed d) = Some (embed d').
Proof.
  intros H.
  destruct d as [obs url path dl tot st pr cr w cs dv].
  destruct a as [o|o|u q| | | |existing open_ok made|size io_ok
                |dltotal dlnow| |result code lastError]; simpl in H.
  - injection H as <-.
    destruct w; fine_eval;
      destruct (N.eqb o nullptr); try reflexivity;
      destruct (registered o obs); reflexivity.
  - injection H as <-. destruct w; reflexivity.
  - unfold startDownload in H. simpl in H.
    destruct st, w; try discriminate H; injection H as <-; reflexivity.
  - injection H as <-. destruct st, w; reflexivity.
  - injection H as <-. destruct st, w; reflexivity.
  - injection H as <-. destruct w; reflexivity.
  - destruct w; try discriminate H. injection H as <-.
    destruct open_ok; [destruct made|]; reflexivity.
  - destruct w; try discriminate H. injection H as <-.
    destruct cr; [reflexivity|]. destruct pr; [reflexivity|].
    fine_eval.
    destruct (of_failbit (ofstream_write size io_ok (outFile l)));
      reflexivity.
  - destruct w; try discriminate H. injection H as <-.
    destruct cr; [reflexivity|]. fine_eval.
    destruct (0 <? dltotal); reflexivity.
  - destruct w; try discriminate H. injection H as <-.
    destruct pr, cr; try reflexivity. fine_eval.
    destruct (of_failbit (ofstream_write size io_ok (outFile l)));
      reflexivity.
  - destruct w; try discriminate H. injection H as <-.
    destruct cr; [reflexivity|].
    destruct st; try reflexivity;
      destruct result; try reflexivity;
      fine_eval; destruct (400 <=? code) eqn:E4; simpl; rewrite ?E4;
      reflexivity.
Qed.

Lemma run_sound sched d d' :
  run sched d = Some d' ->
  exists l, acts l (embed d) = Some (embed d').
Proof.
  revert d. induction sched as [|a sched IH]; intros d H; simpl in H.
  - injection H as <-. exists []. reflexivity.
  - destruct (exec a d) as [d1|] eqn:E; [|discriminate].
    destruct (IH d1 H) as [l Hl].
    exists (pieces a d ++ l).
    rewrite acts_app, (pieces_sound _ _ _ E). exact Hl.
Qed.

(** X20.  The piecewise model is part of the model of single accesses.
    Each move of a schedule is the sequence [pieces] of accesses made with
    nothing in between, leading to the same engine with the worker at the
    corresponding point and no store owed; hence every state a schedule
    reaches is reached access by access. *)
Theorem pieces_are_accesses a d d' :
  reachable d ->
  exec a d = Some d' ->
  acts (pieces a d) (embed d) = Some (embed d') /\
  attainable (embed d) /\ attainable (embed d').
Proof.
  intros [sched Hr] H.
  split; [exact (pieces_sound _ _ _ H)|].
  destruct (run_sound _ _ _ Hr) as [l Hl].
  split.
  - exists l. exact Hl.
  - exists (l ++ pieces a d).
    rewrite acts_app. change (embed init) with fresh in Hl.
    rewrite Hl. exact (pieces_sound _ _ _ H).
Qed.

Lemma pieces_are_accesses_witness :
  at_ (after_acts (pieces (WriteCb 1024 true) (pause performing))
         (embed (pause performing)))
  = AtWaitPause 1024 true.
Proof.
  destruct (pieces_are_accesses (WriteCb 1024 true) (pause performing)
              (after [WriteCb 1024 true] (pause performing)))
    as (H & _ & _).
  - exists [AddObserver 1%N; StartDownload file_url file_path;
            WorkerBegin None true FactoryHandle; ProgressCb 2048 0; Pause].
    by_eval.
  - by_eval.
  - unfold after_acts. rewrite H. by_eval.
Defined.
